(** * ElasticArmor: restriction evaluation, authentication, request
    inspection and HTTP framing, as a shallow embedding of the Python code.

    Sources embedded here:
    - [lib/elasticarmor/util/auth.py]: [Auth], [Client], [Restriction],
      [LdapBackend], [LdapUserBackend], [LdapUsergroupBackend],
      [ElasticsearchRoleBackend];
    - [lib/elasticarmor/util/http.py]: [HttpHeaders], [HttpContext];
    - [lib/elasticarmor/request/indices_apis.py]: [GetIndexApiRequest].

    Python objects that are mutated in place are modelled by explicit state
    passing: a method takes the object and returns its outcome together with
    the object as the call leaves it.  A call either returns a value or
    raises an exception; both are kept in [outcome]. *)

From Stdlib Require Import ZArith Lia Ascii DecimalString Permutation.
From stdpp Require Import gmap strings list.

(** ** The Python run-time the code relies on *)
Module Py.

(** The exception classes that the embedded code raises or lets through. *)
Inductive exn : Type :=
| RestrictionError (msg : string)
| PermissionError (msg : string)
| IndexError
| TypeError
| ValueError
| KeyError (key : string)
| LDAPError
| RequestException.

Inductive outcome (A : Type) : Type :=
| Returned (a : A)
| Raised (e : exn).
Arguments Returned {A} a.
Arguments Raised {A} e.

(** The double quote, for messages that quote their argument. *)
Definition dquote : string := String (Ascii.ascii_of_nat 34) EmptyString.

(** [s.startswith(p)] *)
Definition startswith (p s : string) : bool := String.prefix p s.

(** [needle in s] on strings. *)
Fixpoint contains (needle s : string) : bool :=
  String.prefix needle s ||
  match s with
  | EmptyString => false
  | String _ s' => contains needle s'
  end.

(** [s.split(sep)] for a non-empty separator: scanning left to right, every
    occurrence of [sep] closes the current piece; [skip] counts the characters
    of a separator that was already recognised. *)
Fixpoint split_go (sep : string) (skip : nat) (cur : string) (s : string) : list string :=
  match s with
  | EmptyString => [String.rev cur]
  | String c s' =>
      match skip with
      | S k => split_go sep k cur s'
      | O =>
          if String.prefix sep s
          then String.rev cur :: split_go sep (Nat.pred (String.length sep)) EmptyString s'
          else split_go sep O (String c cur) s'
      end
  end.
Definition split (sep s : string) : list string := split_go sep O EmptyString s.

(** [sep.join(l)] *)
Definition join (sep : string) (l : list string) : string := String.concat sep l.

(** [s.strip()]: Python 2 strips space, tab, newline, return, VT and FF. *)
Fixpoint lstrip (s : string) : string :=
  match s with
  | EmptyString => EmptyString
  | String c s' => if Ascii.is_space c then lstrip s' else s
  end.
Definition rstrip (s : string) : string := String.rev (lstrip (String.rev s)).
Definition strip (s : string) : string := rstrip (lstrip s).

(** [s.rstrip('/')] *)
Fixpoint lstrip_char (ch : Ascii.ascii) (s : string) : string :=
  match s with
  | EmptyString => EmptyString
  | String c s' => if Ascii.eqb c ch then lstrip_char ch s' else s
  end.
Definition rstrip_char (ch : Ascii.ascii) (s : string) : string :=
  String.rev (lstrip_char ch (String.rev s)).

(** [s.lower()] on ASCII letters. *)
Definition lower_ascii (c : Ascii.ascii) : Ascii.ascii :=
  let n := Ascii.N_of_ascii c in
  if ((65 <=? n) && (n <=? 90))%N then Ascii.ascii_of_N (n + 32) else c.
Fixpoint lower (s : string) : string :=
  match s with
  | EmptyString => EmptyString
  | String c s' => String (lower_ascii c) (lower s')
  end.

(** [s[1:]] *)
Definition tail (s : string) : string :=
  match s with
  | EmptyString => EmptyString
  | String _ s' => s'
  end.

(** [int(s)] on a string, as Python 2 reads it: white space around the
    number is dropped, one sign is allowed and may be followed by white
    space, the rest must be a non-empty run of decimal digits; [None] stands
    for [ValueError]. *)
Fixpoint digits_go (acc : Z) (s : string) : option Z :=
  match s with
  | EmptyString => Some acc
  | String c s' =>
      match Ascii.is_nat c with
      | Some d => digits_go (10 * acc + Z.of_nat d)%Z s'
      | None => None
      end
  end.
Definition digits (s : string) : option Z :=
  match s with
  | EmptyString => None
  | _ => digits_go 0%Z s
  end.
Definition int (s : string) : option Z :=
  match strip s with
  | String "-"%char s' => Z.opp <$> digits (lstrip s')
  | String "+"%char s' => digits (lstrip s')
  | s' => digits s'
  end.

(** ['%u' % n] for a non-negative integer. *)
Definition str_of_N (n : N) : string := NilZero.string_of_uint (N.to_uint n).

(** [s.replace(old, new)]: every non-overlapping occurrence, left to right;
    with an empty [old], [new] goes before every character and at the end. *)
Fixpoint replace_go (old new : string) (skip : nat) (s : string) : string :=
  match s with
  | EmptyString => EmptyString
  | String c s' =>
      match skip with
      | S k => replace_go old new k s'
      | O =>
          if String.prefix old s
          then new +:+ replace_go old new (Nat.pred (String.length old)) s'
          else String c (replace_go old new O s')
      end
  end.
Fixpoint intersperse (new : string) (s : string) : string :=
  match s with
  | EmptyString => new
  | String c s' => new +:+ String c (intersperse new s')
  end.
Definition replace (old new s : string) : string :=
  match old with
  | EmptyString => intersperse new s
  | _ => replace_go old new O s
  end.

(** [any(f(x) for x in l)] for a test that cannot raise. *)
Definition any {A} (f : A -> bool) (l : list A) : bool := existsb f l.

(** Truth value of a list. *)
Definition nonempty {A} (l : list A) : bool :=
  match l with
  | [] => false
  | _ :: _ => true
  end.

(** [not l] on a list. *)
Definition is_empty {A} (l : list A) : bool :=
  match l with
  | [] => true
  | _ :: _ => false
  end.

(** [l[i]]: [IndexError] out of range. *)
Definition item {A} (l : list A) (i : nat) : outcome A :=
  match l !! i with
  | Some a => Returned a
  | None => Raised IndexError
  end.

(** *** Methods that mutate [self]

    A method of an object of type [S] that yields an [A] is a function from
    the object to the outcome and the object afterwards.  An exception keeps
    the mutations made before it was raised, as in Python. *)
Definition M (S A : Type) : Type := S -> outcome A * S.

Definition ret {S A} (a : A) : M S A := fun s => (Returned a, s).
Definition raise {S A} (e : exn) : M S A := fun s => (Raised e, s).
Definition bind {S A B} (m : M S A) (k : A -> M S B) : M S B :=
  fun s =>
    match m s with
    | (Returned a, s') => k a s'
    | (Raised e, s') => (Raised e, s')
    end.
Definition get {S} : M S S := fun s => (Returned s, s).
Definition modify {S} (f : S -> S) : M S unit := fun s => (Returned tt, f s).
Definition lift {S A} (o : outcome A) : M S A := fun s => (o, s).

(** [for x in l: body(x)] *)
Fixpoint for_each {S A} (l : list A) (body : A -> M S unit) : M S unit :=
  match l with
  | [] => ret tt
  | x :: l' => bind (body x) (fun _ => for_each l' body)
  end.

End Py.
Export Py.

Declare Scope py_scope.
Delimit Scope py_scope with py.
Notation "x <- m ;; k" := (bind m (fun x => k))
  (at level 100, m at next level, right associativity) : py_scope.
Notation "m ;; k" := (bind m (fun _ => k))
  (at level 100, right associativity) : py_scope.

(** ** [lib/elasticarmor/util/auth.py] *)
Module Auth.

Local Open Scope py_scope.

(** Modelled from the spec: [pattern_match] of [elasticarmor.util], which is
    imported by [auth.py] and is not part of the sources at hand.  The spec
    gives it shell-glob semantics: [*] matches any run of characters, [?] any
    single character, every other character matches itself, case-sensitively. *)
Fixpoint pattern_match (pattern subject : string) : bool :=
  match pattern with
  | EmptyString =>
      match subject with
      | EmptyString => true
      | String _ _ => false
      end
  | String p pattern' =>
      if Ascii.eqb p "*"%char then
        (fix star (s : string) : bool :=
           pattern_match pattern' s ||
           match s with
           | EmptyString => false
           | String _ s' => star s'
           end) subject
      else
        match subject with
        | EmptyString => false
        | String c subject' =>
            (Ascii.eqb p "?"%char || Ascii.eqb p c) && pattern_match pattern' subject'
        end
  end.

(** *** class Restriction *)
Record Restriction : Type := {
  _parsed : bool;
  _read_only : option bool;
  _index_patterns : list string;
  _index_includes : list string;
  _index_excludes : list string;
  _type_patterns : list string;
  _type_includes : list string;
  _type_excludes : list string;
  _field_patterns : list string;
  _field_includes : list string;
  _field_excludes : list string;
  raw_restriction : string
}.

(** [Restriction.__init__] *)
Definition new_Restriction (restriction : string) : Restriction :=
  {| _parsed := false; _read_only := None;
     _index_patterns := []; _index_includes := []; _index_excludes := [];
     _type_patterns := []; _type_includes := []; _type_excludes := [];
     _field_patterns := []; _field_includes := []; _field_excludes := [];
     raw_restriction := restriction |}.

(** The three tiers a restriction scopes. *)
Inductive tier : Type := Index | DocType | Field.

Definition patterns_of (t : tier) (r : Restriction) : list string :=
  match t with
  | Index => _index_patterns r
  | DocType => _type_patterns r
  | Field => _field_patterns r
  end.
Definition includes_of (t : tier) (r : Restriction) : list string :=
  match t with
  | Index => _index_includes r
  | DocType => _type_includes r
  | Field => _field_includes r
  end.
Definition excludes_of (t : tier) (r : Restriction) : list string :=
  match t with
  | Index => _index_excludes r
  | DocType => _type_excludes r
  | Field => _field_excludes r
  end.

(** [self._<tier>_patterns.append(v)] and its two siblings. *)
Definition append_pattern (t : tier) (v : string) (r : Restriction) : Restriction :=
  {| _parsed := _parsed r; _read_only := _read_only r;
     _index_patterns := if t is Index then _index_patterns r ++ [v] else _index_patterns r;
     _index_includes := _index_includes r;
     _index_excludes := _index_excludes r;
     _type_patterns := if t is DocType then _type_patterns r ++ [v] else _type_patterns r;
     _type_includes := _type_includes r;
     _type_excludes := _type_excludes r;
     _field_patterns := if t is Field then _field_patterns r ++ [v] else _field_patterns r;
     _field_includes := _field_includes r;
     _field_excludes := _field_excludes r;
     raw_restriction := raw_restriction r |}.
Definition append_include (t : tier) (v : string) (r : Restriction) : Restriction :=
  {| _parsed := _parsed r; _read_only := _read_only r;
     _index_patterns := _index_patterns r;
     _index_includes := if t is Index then _index_includes r ++ [v] else _index_includes r;
     _index_excludes := _index_excludes r;
     _type_patterns := _type_patterns r;
     _type_includes := if t is DocType then _type_includes r ++ [v] else _type_includes r;
     _type_excludes := _type_excludes r;
     _field_patterns := _field_patterns r;
     _field_includes := if t is Field then _field_includes r ++ [v] else _field_includes r;
     _field_excludes := _field_excludes r;
     raw_restriction := raw_restriction r |}.
Definition append_exclude (t : tier) (v : string) (r : Restriction) : Restriction :=
  {| _parsed := _parsed r; _read_only := _read_only r;
     _index_patterns := _index_patterns r;
     _index_includes := _index_includes r;
     _index_excludes := if t is Index then _index_excludes r ++ [v] else _index_excludes r;
     _type_patterns := _type_patterns r;
     _type_includes := _type_includes r;
     _type_excludes := if t is DocType then _type_excludes r ++ [v] else _type_excludes r;
     _field_patterns := _field_patterns r;
     _field_includes := _field_includes r;
     _field_excludes := if t is Field then _field_excludes r ++ [v] else _field_excludes r;
     raw_restriction := raw_restriction r |}.
Definition finish_parse (read_only : bool) (r : Restriction) : Restriction :=
  {| _parsed := true; _read_only := Some read_only;
     _index_patterns := _index_patterns r;
     _index_includes := _index_includes r;
     _index_excludes := _index_excludes r;
     _type_patterns := _type_patterns r;
     _type_includes := _type_includes r;
     _type_excludes := _type_excludes r;
     _field_patterns := _field_patterns r;
     _field_includes := _field_includes r;
     _field_excludes := _field_excludes r;
     raw_restriction := raw_restriction r |}.

(** The messages of the four [RestrictionError]s. *)
Definition invalid_restriction (raw : string) : exn :=
  RestrictionError ("Invalid restriction " +:+ dquote +:+ raw +:+ dquote).
Definition no_patterns (what raw : string) : exn :=
  RestrictionError ("Restriction " +:+ dquote +:+ raw +:+ dquote +:+
                    " does not provide any " +:+ what +:+ " patterns").

(** One scope segment: the loop over [(v.strip() for v in part.split(','))]
    and the emptiness test that follows it. *)
Definition parse_section (t : tier) (what : string) (part : string) : M Restriction unit :=
  for_each (strip <$> split "," part) (fun v =>
    if startswith "-" v then modify (append_exclude t (tail v))
    else if startswith "+" v then modify (append_include t (tail v))
    else modify (append_pattern t v)) ;;
  r <- get ;;
  if bool_decide (patterns_of t r = []) then raise (no_patterns what (raw_restriction r))
  else ret tt.

(** [Restriction._parse_restriction].  The guard is the source's chained
    comparison [not 1 > len(parts) <= 4], that is
    [not (1 > len(parts) and len(parts) <= 4)]; [a > b] is written [b < a]. *)
Definition _parse_restriction : M Restriction unit :=
  self <- get ;;
  if _parsed self then ret tt else
  let parts := split "/" (raw_restriction self) in
  (if negb (bool_decide (length parts < 1)%nat && bool_decide (length parts <= 4)%nat)
   then raise (invalid_restriction (raw_restriction self)) else ret tt) ;;
  part1 <- lift (item parts 1) ;;
  parse_section Index "index" part1 ;;
  (if bool_decide (2 < length parts)%nat
   then part2 <- lift (item parts 2) ;; parse_section DocType "document type" part2
   else ret tt) ;;
  (if bool_decide (3 < length parts)%nat
   then part3 <- lift (item parts 3) ;; parse_section Field "document field" part3
   else ret tt) ;;
  part0 <- lift (item parts 0) ;;
  modify (finish_parse (String.eqb part0 "read")).

(** [Restriction._apply_restriction] *)
Definition _apply_restriction (subject : string) (patterns includes excludes : list string) : bool :=
  if negb (any (fun pattern => pattern_match pattern subject) patterns) then false
  else if negb (any (fun pattern => pattern_match pattern subject) excludes) then true
  else any (fun pattern => pattern_match pattern subject) includes.

(** [Restriction._check_permission]; [document] and [field] are [None] when
    the caller passed none. *)
Definition _check_permission (self : Restriction) (index : string) (document field : option string) : bool :=
  if (bool_decide (field = None) && nonempty (_field_patterns self))
     || (bool_decide (document = None) && nonempty (_type_patterns self)) then false
  else if (bool_decide (field <> None) && negb (nonempty (_field_patterns self)))
     || (bool_decide (document <> None) && negb (nonempty (_type_patterns self))) then false
  else
  if negb (_apply_restriction index (_index_patterns self) (_index_includes self) (_index_excludes self))
  then false
  else match document with
  | None => true
  | Some document =>
  if negb (_apply_restriction document (_type_patterns self) (_type_includes self) (_type_excludes self))
  then false
  else match field with
  | None => true
  | Some field =>
  _apply_restriction field (_field_patterns self) (_field_includes self) (_field_excludes self)
  end end.

(** [Restriction.permits_read] *)
Definition permits_read (index : string) (document field : option string) : M Restriction bool :=
  _parse_restriction ;;
  self <- get ;;
  ret (_check_permission self index document field).

(** [Restriction.permits_write] *)
Definition permits_write (index : string) (document field : option string) : M Restriction bool :=
  _parse_restriction ;;
  self <- get ;;
  if bool_decide (_read_only self = Some true) then ret false
  else ret (_check_permission self index document field).

(** *** Roles

    [ElasticRole] comes from [elasticarmor.util.elastic]; [auth.py] reads its
    [name] and its [restrictions], which [ElasticsearchRoleBackend] wraps
    into [Restriction] objects. *)
Record Role : Type := {
  role_name : string;
  restrictions : list Restriction
}.
Definition with_restrictions (role : Role) (rs : list Restriction) : Role :=
  {| role_name := role_name role; restrictions := rs |}.

(** *** class Client *)
Record Client : Type := {
  address : string;
  port : N;
  name : option string;
  authenticated : bool;
  username : option string;
  password : option string;
  groups : option (list string);
  roles : option (list Role)
}.

(** [Client.__init__] *)
Definition new_Client (address : string) (port : N) : Client :=
  {| address := address; port := port; name := None; authenticated := false;
     username := None; password := None; groups := None; roles := None |}.

Definition set_name (v : option string) (c : Client) : Client :=
  {| address := address c; port := port c; name := v; authenticated := authenticated c;
     username := username c; password := password c; groups := groups c; roles := roles c |}.
Definition set_authenticated (v : bool) (c : Client) : Client :=
  {| address := address c; port := port c; name := name c; authenticated := v;
     username := username c; password := password c; groups := groups c; roles := roles c |}.
Definition set_groups (v : option (list string)) (c : Client) : Client :=
  {| address := address c; port := port c; name := name c; authenticated := authenticated c;
     username := username c; password := password c; groups := v; roles := roles c |}.
Definition set_roles (v : option (list Role)) (c : Client) : Client :=
  {| address := address c; port := port c; name := name c; authenticated := authenticated c;
     username := username c; password := password c; groups := groups c; roles := v |}.

(** ['%s:%u' % (host, port)] *)
Definition host_port (host : string) (port : N) : string :=
  host +:+ ":" +:+ str_of_N port.

(** [Client.__str__] *)
Definition Client_str (self : Client) : string :=
  match name self with
  | Some n => n
  | None =>
      match username self with
      | Some u => u
      | None => host_port (address self) (port self)
      end
  end.

(** The generator [permits(...) for role in self.roles for restriction in
    role.restrictions] under [any]: restrictions are asked in order, the
    first [True] stops the iteration, an exception leaves it, and every
    restriction that was asked keeps what its parse step did to it. *)
Fixpoint any_restriction (permits : M Restriction bool) (rs : list Restriction)
  : outcome bool * list Restriction :=
  match rs with
  | [] => (Returned false, [])
  | r :: rs' =>
      match permits r with
      | (Returned false, r') =>
          let '(o, rs'') := any_restriction permits rs' in (o, r' :: rs'')
      | (o, r') => (o, r' :: rs')
      end
  end.
Fixpoint any_role (permits : M Restriction bool) (rl : list Role)
  : outcome bool * list Role :=
  match rl with
  | [] => (Returned false, [])
  | role :: rl' =>
      match any_restriction permits (restrictions role) with
      | (Returned false, rs') =>
          let '(o, rl'') := any_role permits rl' in (o, with_restrictions role rs' :: rl'')
      | (o, rs') => (o, with_restrictions role rs' :: rl')
      end
  end.

(** The shared body of [can_read] and [can_write]: iterating over
    [self.roles] when it is [None] is a [TypeError]. *)
Definition can (permits : M Restriction bool) : M Client bool :=
  fun self =>
    match roles self with
    | None => (Raised TypeError, self)
    | Some rl =>
        let '(o, rl') := any_role permits rl in (o, set_roles (Some rl') self)
    end.

(** [Client.can_read] *)
Definition can_read (index : string) (document field : option string) : M Client bool :=
  can (permits_read index document field).

(** [Client.can_write] *)
Definition can_write (index : string) (document field : option string) : M Client bool :=
  can (permits_write index document field).

(** *** class Auth

    [allow_from] maps an address to [None] (every port) or to the ports that
    are allowed; the two backends are collaborators, given by what a call
    returns or raises.  A role backend returns [None] when the transport gave
    no response. *)
Record Auth : Type := {
  allow_from : gmap string (option (list N));
  role_backend : Client -> outcome (option (list Role));
  group_backend : option (Client -> outcome (list string))
}.

Section WithResolver.

(** [socket.gethostbyaddr(address)[0]]; [None] stands for the [IOError] of a
    failed or timed-out lookup. *)
Variable gethostbyaddr : string -> option string.

(** [Auth.populate].  The two [log.debug] calls evaluate their arguments: the
    one after the role lookup joins over [client.roles] and raises
    [TypeError] when the backend returned [None]. *)
Definition populate (self : Auth) : M Client unit :=
  client <- get ;;
  match group_backend self, username client with
  | Some get_group_memberships, Some _ =>
      match get_group_memberships client with
      | Returned memberships => modify (set_groups (Some memberships))
      | Raised LDAPError => ret tt
      | Raised error => raise error
      end
  | _, _ => modify (set_groups (Some []))
  end ;;
  client <- get ;;
  match groups client with
  | None => ret tt
  | Some _ =>
      match role_backend self client with
      | Returned memberships =>
          modify (set_roles memberships) ;;
          if memberships is None then raise TypeError else ret tt
      | Raised RequestException => ret tt
      | Raised error => raise error
      end
  end.

(** [client.port not in allowed_ports] *)
Definition port_not_in (p : N) (allowed_ports : list N) : bool :=
  bool_decide (p ∉ allowed_ports).

(** The end of [authenticate], after the client got its name: population
    on request, then the client is marked as authenticated. *)
Definition finish (self : Auth) (populate_arg : bool) : M Client bool :=
  (if populate_arg then populate self else ret tt) ;;
  modify (set_authenticated true) ;;
  ret true.

(** [Auth.authenticate].  [allow_from.get(address, [])] yields the empty
    port list for an address without entry; the port test is only made when
    the entry is not [None]. *)
Definition authenticate (self : Auth) (populate_arg : bool) : M Client bool :=
  fun client =>
    if bool_decide (username client = None) || bool_decide (password client = None) then
      let allowed_ports := default (Some []) (allow_from self !! address client) in
      if match allowed_ports with
         | Some ports => port_not_in (port client) ports
         | None => false
         end
      then (Returned false, client)
      else
        let hostname := default (address client) (gethostbyaddr (address client)) in
        finish self populate_arg
          (set_name (Some (if allowed_ports is None then hostname
                           else host_port hostname (port client))) client)
    else finish self populate_arg (set_name (username client) client).

End WithResolver.

(** *** Vocabulary of the statements and sample objects *)


(** The answer of [any] over a list of restrictions, read off the outcomes
    of the single calls: the first outcome that is not [False] decides. *)
Fixpoint first_decisive (permits : M Restriction bool) (rs : list Restriction) : outcome bool :=
  match rs with
  | [] => Returned false
  | r :: rs' =>
      match (permits r).1 with
      | Returned false => first_decisive permits rs'
      | o => o
      end
  end.

(** Sample configuration: one address with every port allowed, one with port
    9200 only; no group backend, a role backend that finds no roles, and a
    resolver that knows one address. *)
Definition sample_auth : Auth :=
  {| allow_from := {[ "10.0.0.1" := None; "10.0.0.2" := Some [9200%N] ]};
     role_backend := fun _ => Returned (Some []);
     group_backend := None |}.
Definition sample_resolver (addr : string) : option string :=
  if String.eqb addr "10.0.0.1" then Some "kibana.local" else None.

End Auth.

(** ** [lib/elasticarmor/util/http.py] *)
Module Http.

Local Open Scope py_scope.

(** *** class HttpHeaders

    [httplib.HTTPMessage] keeps the header values in [self.dict], keyed by the
    lower-cased header name; a header that is read several times has its
    values joined by [", "].  That dictionary is the state modelled here (the
    raw header lines kept beside it are not read by the methods below). *)
Abbreviation HttpHeaders := (gmap string string).

(** [name in self] *)
Definition has_header (name : string) (self : HttpHeaders) : bool :=
  bool_decide (is_Some (self !! lower name)).

(** [del self[name]] *)
Definition delitem (name : string) (self : HttpHeaders) : HttpHeaders :=
  delete (lower name) self.

(** [self[name] = value]: [rfc822.Message.__setitem__] deletes the header and
    stores the new value. *)
Definition setitem (name value : string) (self : HttpHeaders) : HttpHeaders :=
  <[lower name := value]> (delitem name self).

(** [value.split(', ')[-1]] when [', ' in value] *)
Definition last_value (value : string) : string :=
  if contains ", " value then List.last (split ", " value) EmptyString else value.

(** [HttpHeaders.__getitem__] *)
Definition getitem (name : string) (self : HttpHeaders) : outcome string :=
  match self !! lower name with
  | Some value => Returned (last_value value)
  | None => Raised (KeyError (lower name))
  end.

(** [HttpHeaders.getheader]; a default of [None] is [None] here. *)
Definition getheader (name : string) (default : option string) (self : HttpHeaders) : option string :=
  last_value <$> (match self !! lower name with
                  | Some value => Some value
                  | None => default
                  end).

(** [HttpHeaders.get] *)
Definition get (name : string) (default : option string) (self : HttpHeaders) : option string :=
  getheader name default self.

(** [HttpHeaders.getheaders] *)
Definition getheaders (name : string) (self : HttpHeaders) : list string :=
  match self !! lower name with
  | Some value => split ", " value
  | None => []
  end.

(** What [extract_connection_options] stores for an option: the header's
    value, the parsed [Keep-Alive] parameters, or [None]. *)
Inductive option_value : Type :=
| Value (v : string)
| Parameters (d : gmap string string)
| NoValue.

(** [CaseInsensitiveDict]: keyed by the lower-cased key, it keeps the key as
    it was last written together with the value. *)
Abbreviation Options := (gmap string (string * option_value)).

Definition set_option (option : string) (v : option_value) (options : Options) : Options :=
  <[lower option := (option, v)]> options.

(** [dict(pairs)]: every element must have two items ([ValueError]
    otherwise), a later key overwrites an earlier one. *)
Fixpoint dict (acc : gmap string string) (pairs : list (list string)) : outcome (gmap string string) :=
  match pairs with
  | [] => Returned acc
  | [k; v] :: pairs' => dict (<[k := v]> acc) pairs'
  | _ :: _ => Raised ValueError
  end.

(** The body of the loop over [self.getheaders('Connection')]. *)
Definition extract_option (option : string) : M (Options * HttpHeaders) unit :=
  fun '(options, self) =>
    if has_header option self then
      if String.eqb (lower option) "keep-alive" then
        match dict ∅ ((fun value => strip <$> split "=" value) <$> getheaders option self) with
        | Returned parameters =>
            (Returned tt, (set_option option (Parameters parameters) options, delitem option self))
        | Raised e => (Raised e, (options, self))
        end
      else
        match getitem option self with
        | Returned value =>
            (Returned tt, (set_option option (Value value) options, delitem option self))
        | Raised e => (Raised e, (options, self))
        end
    else if String.eqb (lower option) "keep-alive" then
      (Returned tt, (set_option option NoValue options, self))
    else if String.eqb (lower option) "close" then
      (Returned tt, (set_option option NoValue options, self))
    else (Returned tt, (options, self)).

(** [HttpHeaders.extract_connection_options] *)
Definition extract_connection_options : M HttpHeaders Options :=
  fun self =>
    match for_each (getheaders "Connection" self) extract_option (∅, self) with
    | (Returned _, (options, self')) =>
        if bool_decide (options = ∅) then (Returned options, self')
        else (Returned options, delitem "Connection" self')
    | (Raised e, (_, self')) => (Raised e, self')
    end.

(** The parameters of the [Keep-Alive] header as [extract_option] parses
    them, and whether they parse (they do when there is no such header). *)
Definition keep_alive_parameters (self : HttpHeaders) : outcome (gmap string string) :=
  dict ∅ ((fun value => strip <$> split "=" value) <$> getheaders "keep-alive" self).
Definition keep_alive_ok (self : HttpHeaders) : bool :=
  match keep_alive_parameters self with
  | Returned _ => true
  | Raised _ => false
  end.

(** [HttpHeaders.extend_via_field]; [comment] is [None] when none is given. *)
Definition extend_via_field (received_protocol received_by : string) (comment : option string)
  (self : HttpHeaders) : HttpHeaders :=
  let formatted_values :=
    received_protocol +:+ " " +:+ received_by +:+
    (match comment with
     | Some (String c rest) => " " +:+ String c rest
     | _ => ""
     end) in
  match get "Via" (Some "") self with
  | Some (String c rest) => setitem "Via" (join ", " [String c rest; formatted_values]) self
  | _ => setitem "Via" formatted_values self
  end.

(** *** class HttpContext

    Of a request or a response only [.headers] is read. *)
Record Message : Type := { headers : HttpHeaders }.
Record HttpContext : Type := {
  request : Message;
  response : option Message
}.

(** [any(int(v) != content_length for v in values)]; [None] stands for the
    [ValueError] of an [int(v)] that is reached. *)
Fixpoint any_differs (content_length : Z) (values : list string) : option bool :=
  match values with
  | [] => Some false
  | v :: values' =>
      match int v with
      | None => None
      | Some n => if bool_decide (n <> content_length) then Some true
                  else any_differs content_length values'
      end
  end.

(** The headers [has_proper_framing] looks at: the response's when the
    context has a response, the request's otherwise. *)
Definition framing_headers (self : HttpContext) : HttpHeaders :=
  match response self with
  | None => headers (request self)
  | Some response => headers response
  end.

(** [HttpContext.has_proper_framing] *)
Definition has_proper_framing (self : HttpContext) : outcome bool :=
  let headers := framing_headers self in
  let content_length_found := has_header "Content-Length" headers in
  (* the [try] block: [Some b] when it returns [b], [None] when it falls through *)
  let returned : outcome (option bool) :=
    if has_header "Content-Length" headers then
      match getitem "Content-Length" headers with
      | Raised e => Raised e
      | Returned value =>
          match int value with
          | None => Returned (Some false)
          | Some content_length =>
              if bool_decide (content_length < 0)%Z then Returned (Some false)
              else match any_differs content_length (getheaders "Content-Length" headers) with
                   | None => Returned (Some false)
                   | Some true => Returned (Some false)
                   | Some false => Returned None
                   end
          end
      end
    else Returned None in
  match returned with
  | Raised e => Raised e
  | Returned (Some b) => Returned b
  | Returned None =>
      if has_header "Transfer-Encoding" headers then
        let improper : outcome bool :=
          if content_length_found then Returned true
          else match response self with
               | Some _ => Returned false
               | None =>
                   match getitem "Transfer-Encoding" headers with
                   | Raised e => Raised e
                   | Returned value => Returned (bool_decide (lower (strip value) <> "chunked"))
                   end
               end in
        match improper with
        | Raised e => Raised e
        | Returned true => Returned false
        | Returned false => Returned true
        end
      else Returned true
  end.

(** *** Module functions *)

(** [is_false] *)
Definition is_false (value : string) : bool :=
  bool_decide (lower (strip value) ∈ ["false"; "0"; "no"; "off"]).

(** The entry [extend_via_field] formats:
    ['{0} {1}{2}'.format(received_protocol, received_by, ' ' + comment if comment else '')]. *)
Definition via_entry (received_protocol received_by : string) (comment : option string) : string :=
  received_protocol +:+ " " +:+ received_by +:+
  (match comment with
   | Some (String c rest) => " " +:+ String c rest
   | _ => ""
   end).

(** *** Sample objects *)

Definition sample_headers : HttpHeaders :=
  {[ "connection" := "Keep-Alive, X-Foo, close";
     "keep-alive" := "timeout=5, max=100";
     "x-foo" := "a, b";
     "host" := "es.local" ]}.

End Http.

(** ** [lib/elasticarmor/request/indices_apis.py] *)
Module IndicesApis.

Local Open Scope py_scope.

(** [GetIndexApiRequest.index_settings] *)
Definition index_settings : gmap string string :=
  {[ "_settings" := "api/indices/get/settings";
     "_mappings" := "api/indices/get/mappings";
     "_warmers" := "api/indices/get/warmers";
     "_aliases" := "api/indices/get/aliases" ]}.

(** What [inspect] reads of the request: [self.path], the match of the
    [{indices}] placeholder and, when the location has one, the match of
    [{keywords}]. *)
Record GetIndexApiRequest : Type := {
  path : string;
  indices : string;
  keywords_match : option string
}.
Definition set_path (v : string) (r : GetIndexApiRequest) : GetIndexApiRequest :=
  {| path := v; indices := indices r; keywords_match := keywords_match r |}.

(** [self.get_match('keywords', '')] *)
Definition get_match_keywords (self : GetIndexApiRequest) : string :=
  default "" (keywords_match self).

(** [[s.strip() for s in self.get_match('keywords', '').split(',') if s]] *)
Definition requested_keywords (self : GetIndexApiRequest) : list string :=
  strip <$> filter (fun s => s <> "") (split "," (get_match_keywords self)).

(** [missing_permissions.setdefault(permission, []).append(index)] *)
Definition setdefault_append (permission index : string) (missing : gmap string (list string))
  : gmap string (list string) :=
  <[permission := default [] (missing !! permission) ++ [index]]> missing.

(** The entry of one missing permission in the hint, and the message. *)
Definition permission_entry (entry : string * list string) : string :=
  entry.1 +:+ " (" +:+ join ", " entry.2 +:+ ")".
Definition missing_message (entries : list (string * list string)) : string :=
  "You are missing the following permissions: " +:+ join ", " (permission_entry <$> entries).

(** *** Vocabulary of the statements *)

(** A failing pair is recorded in [missing] when the permission has an entry
    that lists the index pattern. *)
Definition recorded (missing : gmap string (list string)) (permission index : string) : Prop :=
  exists indices, missing !! permission = Some indices /\ index ∈ indices.

(** A keyword is selected when no keywords were requested or it is one of
    them. *)
Definition selected (keywords : list string) (setting : string) : bool :=
  is_empty keywords || bool_decide (setting ∈ keywords).

Section Inspect.

(** [FilterString] of [elasticarmor.util.elastic] is not part of the sources
    at hand; [inspect] uses [FilterString.from_string], the truth value of a
    filter, [str] of it and [str] of every pattern [iter_patterns] yields. *)
Context {FilterString : Type}.
Variable from_string : string -> FilterString.
Variable filter_bool : FilterString -> bool.
Variable filter_str : FilterString -> string.
Variable iter_patterns : FilterString -> list string.

(** The client as [inspect] uses it: [create_filter_string] narrows a filter
    to what a permission covers ([None]: nothing is covered), [can] tells
    whether the client holds a permission on an index pattern. *)
Record Client : Type := {
  create_filter_string : string -> FilterString -> option FilterString;
  can : string -> string -> bool
}.

(** A Python 2 [dict] iterates in an order of its own; [dict_order] is that
    order, applied to the items of the dictionary. *)
Variable dict_order : forall A : Type, list (string * A) -> list (string * A).
Hypothesis dict_order_perm : forall A (items : list (string * A)), dict_order A items ≡ₚ items.

Definition iteritems {A} (d : gmap string A) : list (string * A) :=
  dict_order A (map_to_list d).

(** The inner loop: one keyword's permission against every index pattern. *)
Definition check_setting (client : Client) (setting permission : string) (patterns : list string)
  (acc : list string * gmap string (list string)) : list string * gmap string (list string) :=
  fold_left (fun '(permitted_settings, missing_permissions) index =>
               if can client permission index
               then (permitted_settings ++ [setting], missing_permissions)
               else (permitted_settings, setdefault_append permission index missing_permissions))
            patterns acc.

(** The outer loop over [self.index_settings.iteritems()], from the state
    [acc] of the two collections. *)
Definition check_from (client : Client) (keywords : list string) (patterns : list string)
  (items : list (string * string)) (acc : list string * gmap string (list string))
  : list string * gmap string (list string) :=
  fold_left (fun acc '(setting, permission) =>
               if is_empty keywords || bool_decide (setting ∈ keywords)
               then check_setting client setting permission patterns acc
               else acc)
            items acc.

(** [permitted_settings, missing_permissions = [], {}] and the loop. *)
Definition check_settings (client : Client) (keywords : list string) (patterns : list string)
  (items : list (string * string)) : list string * gmap string (list string) :=
  check_from client keywords patterns items ([], ∅).

(** The rewrite of the path to the narrowed filter (lines 50-51). *)
Definition narrow (index_filter : FilterString) (self : GetIndexApiRequest) : GetIndexApiRequest :=
  if filter_bool index_filter
  then set_path (replace (indices self) (filter_str index_filter) (path self)) self
  else self.

(** [GetIndexApiRequest.inspect] *)
Definition inspect (client : Client) : M GetIndexApiRequest unit :=
  self <- get ;;
  match create_filter_string client "api/indices/get/*" (from_string (indices self)) with
  | None =>
      raise (PermissionError
               "You are not permitted to access any settings of the given index or indices.")
  | Some index_filter =>
      modify (narrow index_filter) ;;
      let keywords := requested_keywords self in
      match List.find (fun kw => bool_decide (index_settings !! kw = None)) keywords with
      | Some unknown => raise (PermissionError ("Unknown index setting: " +:+ unknown))
      | None =>
          let '(permitted_settings, missing_permissions) :=
            check_settings client keywords (iter_patterns index_filter) (iteritems index_settings) in
          if bool_decide (missing_permissions <> ∅) then
            raise (PermissionError (missing_message (iteritems missing_permissions)))
          else if is_empty keywords
                  && bool_decide (length permitted_settings < size index_settings)%nat then
            self <- get ;;
            modify (set_path (join "/" [rstrip_char "/" (path self); join "," permitted_settings]))
          else ret tt
      end
  end.

(** The pairs that fail the check: a selected keyword's permission that the
    client does not hold on a pattern of the narrowed filter. *)
Definition fails (client : Client) (keywords patterns : list string)
  (permission index : string) : Prop :=
  exists setting, index_settings !! setting = Some permission
                  /\ selected keywords setting = true
                  /\ index ∈ patterns /\ can client permission index = false.

End Inspect.

(** *** The example of the spec

    Filters are lists of patterns here: [from_string] splits at commas, a
    filter is true when it has a pattern, [str] joins with commas.  The
    client holds the four settings permissions on [idx-1] and [idx-2], but
    for the settings permission on [idx-2]; narrowing keeps the patterns the
    client holds something on. *)
Definition list_from_string (s : string) : list string := split "," s.
Definition list_patterns (index_filter : list string) : list string := index_filter.

Definition sample_client : @Client (list string) :=
  {| create_filter_string := fun _ index_filter =>
       match filter (fun i => i ∈ ["idx-1"; "idx-2"]) index_filter with
       | [] => None
       | kept => Some kept
       end;
     can := fun permission index =>
       bool_decide (permission ∈ ["api/indices/get/settings"; "api/indices/get/mappings";
                                  "api/indices/get/warmers"; "api/indices/get/aliases"])
       && bool_decide (index ∈ ["idx-1"; "idx-2"])
       && negb (String.eqb permission "api/indices/get/settings" && String.eqb index "idx-2") |}.

Definition sample_request : GetIndexApiRequest :=
  {| path := "/idx-1,idx-2"; indices := "idx-1,idx-2"; keywords_match := None |}.

(** A client that holds everything, and a request that is narrowed. *)
Definition full_client : @Client (list string) :=
  {| create_filter_string := fun _ index_filter =>
       match filter (fun i => i ∈ ["idx-1"; "idx-2"]) index_filter with
       | [] => None
       | kept => Some kept
       end;
     can := fun _ _ => true |}.
Definition wide_request : GetIndexApiRequest :=
  {| path := "/idx-1,idx-9"; indices := "idx-1,idx-9"; keywords_match := None |}.

(** A client that holds no permission and whose filter comes back empty, as
    a filter that is neither [None] nor true; a request with a keyword. *)
Definition empty_filter_client : @Client (list string) :=
  {| create_filter_string := fun _ _ => Some [];
     can := fun _ _ => false |}.
Definition single_request : GetIndexApiRequest :=
  {| path := "/idx-1"; indices := "idx-1"; keywords_match := None |}.
Definition keyword_request : GetIndexApiRequest :=
  {| path := "/idx-1,idx-9/_mappings"; indices := "idx-1,idx-9";
     keywords_match := Some "_mappings" |}.

(** The order in which the items were written. *)
Definition written_order (A : Type) (items : list (string * A)) : list (string * A) := items.

End IndicesApis.

(** ** [lib/elasticarmor/util/auth.py]: the LDAP backends *)
Module Ldap.

Import Auth.
Local Open Scope py_scope.

(** [CACHE_INVALIDATION_INTERVAL], in seconds. *)
Definition CACHE_INVALIDATION_INTERVAL : Z := 900.

(** What a backend sends to the directory through its connection:
    [simple_bind_s], [search_s] (always with [ldap.SCOPE_SUBTREE]) and
    [unbind]. *)
Inductive request : Type :=
| SimpleBind (dn password : string)
| Search (base_dn search_string : string) (attributes : option (list string)) (attrsonly : nat)
| Unbind.

(** An entry of a search result: its DN and its attributes. *)
Abbreviation entry := (string * gmap string (list string))%type.

(** The settings that the three backend classes read in [__init__]. *)
Record Settings : Type := {
  ldap_url : string;
  ldap_bind_dn : option string;
  ldap_bind_pw : option string;
  ldap_user_base_dn : string;
  ldap_user_object_class : string;
  ldap_user_name_attribute : string;
  ldap_group_base_dn : string;
  ldap_group_object_class : string;
  ldap_group_name_attribute : string;
  ldap_group_membership_attribute : string
}.

(** ['{0}'.format(name)] for a client name, which is [None] before
    authentication. *)
Definition format_name (client_name : option string) : string :=
  default "None" client_name.

(** The dictionary literal [{'objectClass': object_class, attribute: value}]:
    the later key wins when the two are the same. *)
Definition class_filter (object_class attribute value : string) : gmap string string :=
  <[attribute := value]> {[ "objectClass" := object_class ]}.

(** The loop that collects the group names: the results that have the
    group name attribute, in order, each with all values of the attribute. *)
Definition collect_memberships (attribute : string) (results : list entry) : list string :=
  concat (omap (fun result : entry => result.2 !! attribute) results).

Section Backend.

(** A point in time is what [time.time()] returns; the code adds the
    interval to one and compares two of them with [>]. *)
Context {Time : Type}.
Variable time_add : Time -> Z -> Time.
Variable time_gt : Time -> Time -> bool.

(** The directory as one worker sees it: [ldap.initialize(url)], and the
    answer to a request given the requests sent before it ([simple_bind_s]
    and [unbind] answer with the empty list). *)
Variable ldap_initialize : string -> outcome unit.
Variable server : list request -> request -> outcome (list entry).

(** The iteration order of a Python 2 [dict], applied to its items. *)
Variable dict_order : list (string * string) -> list (string * string).

(** The state of a backend as one worker sees it: the two fields of its
    [threading.local] ([_local_connection] tells whether there is a
    connection object), the requests sent so far, oldest first, and the
    group cache, which gives the memberships and the time of expiry for a
    client name.  The reader/writer lock around the cache orders the workers
    and does not change what one of them computes. *)
Record State : Type := {
  _local_bound : bool;
  _local_connection : bool;
  sent : list request;
  _group_cache : gmap (option string) (list string * Time)
}.

Definition set_bound (v : bool) (st : State) : State :=
  {| _local_bound := v; _local_connection := _local_connection st; sent := sent st;
     _group_cache := _group_cache st |}.
Definition set_connection (v : bool) (st : State) : State :=
  {| _local_bound := _local_bound st; _local_connection := v; sent := sent st;
     _group_cache := _group_cache st |}.
Definition record_request (r : request) (st : State) : State :=
  {| _local_bound := _local_bound st; _local_connection := _local_connection st;
     sent := sent st ++ [r]; _group_cache := _group_cache st |}.
Definition set_group_cache (v : gmap (option string) (list string * Time)) (st : State) : State :=
  {| _local_bound := _local_bound st; _local_connection := _local_connection st;
     sent := sent st; _group_cache := v |}.

(** The backend after [__init__], on a worker that has not used it yet. *)
Definition new_State : State :=
  {| _local_bound := false; _local_connection := false; sent := []; _group_cache := ∅ |}.

(** The property [LdapBackend.connection]: the connection is made on first
    use. *)
Definition connection (settings : Settings) : M State unit :=
  st <- get ;;
  if _local_connection st then ret tt
  else lift (ldap_initialize (ldap_url settings)) ;; modify (set_connection true).

(** A call on [self.connection]: the request goes out and the directory
    answers, or the call raises. *)
Definition call (settings : Settings) (r : request) : M State (list entry) :=
  connection settings ;;
  st <- get ;;
  modify (record_request r) ;;
  lift (server (sent st) r).

(** [LdapBackend.bind] *)
Definition bind (settings : Settings) (dn password : option string) : M State unit :=
  st <- get ;;
  if _local_bound st then ret tt
  else
    let '(dn, password) :=
      match dn, password with
      | None, None => (ldap_bind_dn settings, ldap_bind_pw settings)
      | _, _ => (dn, password)
      end in
    match dn, password with
    | Some dn, Some password =>
        call settings (SimpleBind dn password) ;;
        modify (set_bound true)
    | _, _ => ret tt
    end.

(** [LdapBackend.unbind] *)
Definition unbind (settings : Settings) : M State unit :=
  st <- get ;;
  (if _local_bound st
   then call settings Unbind ;; modify (set_bound false)
   else ret tt) ;;
  modify (set_connection false).

(** The filter string that [LdapBackend.search] builds from its
    dictionary. *)
Definition search_string (search_filter : gmap string string) : string :=
  let items := dict_order (map_to_list search_filter) in
  if bool_decide (1 < size search_filter)%nat then
    "(&(" +:+ join ")(" ((fun '(k, v) => k +:+ "=" +:+ v) <$> items) +:+ "))"
  else
    match items with
    | (k, v) :: _ => "(" +:+ k +:+ "=" +:+ v +:+ ")"
    | [] => "(objectClass=*)"
    end.

(** [LdapBackend.search] *)
Definition search (settings : Settings) (base_dn : string) (search_filter : gmap string string)
  (attributes : option (list string)) : M State (list entry) :=
  let attrsonly :=
    match attributes with
    | Some [] => 1%nat
    | _ => 0%nat
    end in
  call settings (Search base_dn (search_string search_filter) attributes attrsonly).

(** [LdapUserBackend.fetch_user_dn]; [ldap.NO_RESULTS_RETURNED] is a
    subclass of [ldap.LDAPError], the class that [Auth.populate] catches. *)
Definition fetch_user_dn (settings : Settings) (user : option string) : M State string :=
  result <- search settings (ldap_user_base_dn settings)
              (class_filter (ldap_user_object_class settings)
                 (ldap_user_name_attribute settings) (format_name user))
              (Some []) ;;
  match result with
  | [] => raise LDAPError
  | [(dn, _)] => ret dn
  | _ :: _ :: _ => raise LDAPError
  end.

(** [LdapUsergroupBackend.clear_cache] *)
Definition clear_cache : M State unit := modify (set_group_cache ∅).

(** The [else] branch of [get_group_memberships]: the memberships are
    fetched from the directory and stored with the time of expiry. *)
Definition refresh (settings : Settings) (client : Client) (now : Time) : M State (list string) :=
  bind settings None None ;;
  dn <- fetch_user_dn settings (name client) ;;
  results <- search settings (ldap_group_base_dn settings)
               (class_filter (ldap_group_object_class settings)
                  (ldap_group_membership_attribute settings) dn)
               (Some [ldap_group_name_attribute settings]) ;;
  let memberships := collect_memberships (ldap_group_name_attribute settings) results in
  modify (fun st =>
            set_group_cache
              (<[name client := (memberships, time_add now CACHE_INVALIDATION_INTERVAL)]>
                 (_group_cache st)) st) ;;
  unbind settings ;;
  ret memberships.

(** [LdapUsergroupBackend.get_group_memberships]; [now] is what
    [time.time()] returns in this call.  The decorator [Protector] and
    [writeContext] take and release the lock of [elasticarmor.util.rwlock],
    which is not among the sources at hand; they are left out. *)
Definition get_group_memberships (settings : Settings) (client : Client) (now : Time)
  : M State (list string) :=
  st <- get ;;
  match _group_cache st !! name client with
  | Some (memberships, expires) =>
      if time_gt expires now then ret memberships
      else refresh settings client now
  | None => refresh settings client now
  end.

(** *** Vocabulary of the statements *)

(** The two searches of a refresh, as [search] sends them. *)
Definition user_search (settings : Settings) (user : option string) : request :=
  Search (ldap_user_base_dn settings)
    (search_string (class_filter (ldap_user_object_class settings)
                      (ldap_user_name_attribute settings) (format_name user)))
    (Some []) 1.
Definition group_search (settings : Settings) (dn : string) : request :=
  Search (ldap_group_base_dn settings)
    (search_string (class_filter (ldap_group_object_class settings)
                      (ldap_group_membership_attribute settings) dn))
    (Some [ldap_group_name_attribute settings]) 0.

(** The bind request that [bind()] sends from state [st]: none when the
    worker is bound or a configured credential is missing. *)
Definition bind_requests (settings : Settings) (st : State) : list request :=
  if _local_bound st then []
  else
    match ldap_bind_dn settings, ldap_bind_pw settings with
    | Some dn, Some password => [SimpleBind dn password]
    | _, _ => []
    end.

(** Whether the worker is bound after [bind()] returned from state [st]. *)
Definition bound_after_bind (settings : Settings) (st : State) : bool :=
  _local_bound st || nonempty (bind_requests settings st).

(** The requests of a complete refresh from state [st] for a user whose DN
    is [dn]. *)
Definition refresh_requests (settings : Settings) (client : Client) (dn : string) (st : State)
  : list request :=
  bind_requests settings st
  ++ [user_search settings (name client); group_search settings dn]
  ++ (if bound_after_bind settings st then [Unbind] else []).

End Backend.

(** A directory with one user and two groups, of which one has no name
    attribute; every bind is accepted. *)
Definition sample_settings : Settings :=
  {| ldap_url := "ldap://localhost";
     ldap_bind_dn := Some "cn=armor";
     ldap_bind_pw := Some "secret";
     ldap_user_base_dn := "ou=people";
     ldap_user_object_class := "person";
     ldap_user_name_attribute := "uid";
     ldap_group_base_dn := "ou=groups";
     ldap_group_object_class := "groupOfNames";
     ldap_group_name_attribute := "cn";
     ldap_group_membership_attribute := "member" |}.

Definition sample_server (history : list request) (r : request) : outcome (list entry) :=
  match r with
  | SimpleBind _ _ => Returned []
  | Unbind => Returned []
  | Search base_dn _ _ _ =>
      if String.eqb base_dn "ou=people" then Returned [("uid=kibana,ou=people", ∅)]
      else Returned [("cn=ops,ou=groups", {[ "cn" := ["ops"; "operators"] ]});
                     ("cn=odd,ou=groups", ∅);
                     ("cn=dev,ou=groups", {[ "cn" := ["dev"] ]})]
  end.

(** A directory that knows no user. *)
Definition empty_server (history : list request) (r : request) : outcome (list entry) :=
  Returned [].

Definition kibana_client : Client :=
  {| address := "192.0.2.7"; port := 40000; name := Some "kibana"; authenticated := false;
     username := Some "kibana"; password := Some "secret"; groups := None; roles := None |}.

(** A lookup for the sample client at time [now], counted in seconds, by
    a worker whose connections are always made. *)
Definition sample_lookup (server : list request -> request -> outcome (list entry)) (now : Z)
  : M (@State Z) (list string) :=
  get_group_memberships Z.add Z.gtb (fun _ => Returned tt) server (fun items => items)
    sample_settings kibana_client now.

End Ldap.

(** ** [lib/elasticarmor/util/auth.py]: the role backend *)
Module RoleBackend.

Import Auth.
Local Open Scope py_scope.

(** Modelled from the spec: [ElasticRole.search(name, groups)] is the request
    of one search for roles, filtered by the client's name and its groups;
    its [params] take the page size. *)
Record Request : Type := {
  search_name : option string;
  search_groups : option (list string);
  params : gmap string Z
}.
Definition ElasticRole_search (name : option string) (groups : option (list string)) : Request :=
  {| search_name := name; search_groups := groups; params := ∅ |}.
Definition set_param (key : string) (value : Z) (request : Request) : Request :=
  {| search_name := search_name request; search_groups := search_groups request;
     params := <[key := value]> (params request) |}.

(** What [ElasticRole.from_search_result(hit)] does: it returns a role, of
    which [auth.py] reads the name and the restrictions as they are written
    in the document, it raises the [ElasticSearchError] that the loop
    catches, or it raises something else. *)
Inductive search_result : Type :=
| RoleOf (role_name : string) (restrictions : list string)
| ElasticSearchError
| OtherError (e : exn).

Section Backend.

(** A hit of the search, as the JSON document has it. *)
Context {Hit : Type}.

(** What [get_role_memberships] uses of a response of [requests]:
    [raise_for_status()] and [json()], whose result is read as a dictionary
    of dictionaries with the list of hits under [hits.hits]. *)
Record Response : Type := {
  raise_for_status : outcome unit;
  json : outcome (gmap string (gmap string (list Hit)))
}.

(** [self.connection.process(request)], which returns [None] when there is
    no response, and [ElasticRole.from_search_result]. *)
Variable process : Request -> outcome (option Response).
Variable from_search_result : Hit -> search_result.

(** The body of the loop over the hits; a role that could not be made is
    logged and left out. *)
Definition add_role (hit : Hit) : M (list Role) unit :=
  match from_search_result hit with
  | ElasticSearchError => ret tt
  | OtherError e => raise e
  | RoleOf role_name restrictions =>
      modify (fun roles =>
                roles ++ [{| Auth.role_name := role_name;
                             Auth.restrictions := new_Restriction <$> restrictions |}])
  end.

(** [ElasticsearchRoleBackend.get_role_memberships] *)
Definition get_role_memberships (client : Client) : outcome (option (list Role)) :=
  let request := set_param "size" 1000 (ElasticRole_search (name client) (groups client)) in
  match process request with
  | Raised e => Raised e
  | Returned None => Returned None
  | Returned (Some response) =>
      match raise_for_status response with
      | Raised e => Raised e
      | Returned _ =>
          match json response with
          | Raised e => Raised e
          | Returned result =>
              let hits := default [] (default ∅ (result !! "hits") !! "hits") in
              match for_each hits add_role [] with
              | (Returned _, roles) => Returned (Some roles)
              | (Raised e, _) => Raised e
              end
          end
      end
  end.

(** *** Vocabulary of the statements *)

(** The role that the loop makes of a hit, if it makes one. *)
Definition role_of_hit (hit : Hit) : option Role :=
  match from_search_result hit with
  | RoleOf role_name restrictions =>
      Some {| Auth.role_name := role_name;
              Auth.restrictions := new_Restriction <$> restrictions |}
  | _ => None
  end.

End Backend.

(** A search with three hits, given by what [from_search_result] makes of
    them: a role with two restrictions, a document that is no role, and a
    role without restrictions. *)
Definition sample_response : Response :=
  {| raise_for_status := Returned tt;
     json := Returned {[ "hits" :=
               {[ "hits" := [RoleOf "kibana-user" ["read/logs-*"; "write/.kibana"];
                             ElasticSearchError;
                             RoleOf "guest" []] ]} ]} |}.
Definition sample_process (request : Request) : outcome (option (@Response search_result)) :=
  Returned (Some sample_response).

(** The configuration that uses this backend, without group backend. *)
Definition backend_auth : Auth :=
  {| allow_from := ∅;
     role_backend := get_role_memberships sample_process (fun hit => hit);
     group_backend := None |}.

End RoleBackend.

(** * Properties *)

(** ** The Python run-time *)
Module PyFacts.

Example split_slash : split "/" "read/logs-*,-x/doc" = ["read"; "logs-*,-x"; "doc"].
Proof. reflexivity. Qed.
Example split_empty : split "/" "" = [""].
Proof. reflexivity. Qed.
Example split_comma_space : split ", " "a, b,c, , d" = ["a"; "b,c"; ""; "d"].
Proof. reflexivity. Qed.
Example strip_both : strip "  keep alive  " = "keep alive".
Proof. reflexivity. Qed.
Example lower_mixed : lower "Keep-Alive" = "keep-alive".
Proof. reflexivity. Qed.
Example int_examples :
  int " 42 " = Some 42%Z /\ int "-7" = Some (-7)%Z /\ int "4x" = None /\ int "" = None.
Proof. repeat split; reflexivity. Qed.
Example int_sign_and_space :
  int "+ 5" = Some 5%Z /\ int "- 5" = Some (-5)%Z /\ int "+" = None /\ int "+ " = None
  /\ int "5 5" = None /\ int "+-5" = None /\ int "007" = Some 7%Z.
Proof. repeat split; reflexivity. Qed.
Example replace_all : replace "ab" "X" "abcabab" = "XcXX".
Proof. reflexivity. Qed.
Example str_of_N_port : str_of_N 9200 = "9200".
Proof. reflexivity. Qed.

(** [str.split] yields at least one piece. *)
Lemma split_go_length (sep : string) (s : string) :
  forall (skip : nat) (cur : string), (1 <= length (split_go sep skip cur s))%nat.
Proof.
  induction s as [|c s IH]; intros skip cur; cbn [split_go].
  - simpl. lia.
  - destruct skip as [|k]; [|apply IH].
    destruct (String.prefix sep (String c s)); [simpl; lia | apply IH].
Qed.

Lemma split_length (sep s : string) : (1 <= length (split sep s))%nat.
Proof. apply split_go_length. Qed.


(** *** Strings without the separator, letter case *)

Lemma append_empty_r (s : string) : s +:+ "" = s.
Proof.
  induction s as [|c s IH]; [reflexivity|].
  change (String c s +:+ "") with (String c (s +:+ "")). by rewrite IH.
Qed.

Lemma rev_app_append (cur acc s : string) :
  String.rev_app cur acc +:+ s = String.rev_app cur (acc +:+ s).
Proof. revert acc. induction cur as [|c cur IH]; intros acc; [reflexivity|]. cbn. apply IH. Qed.

Lemma contains_cons (sep : string) (c : Ascii.ascii) (s : string) :
  contains sep (String c s) = String.prefix sep (String c s) || contains sep s.
Proof. reflexivity. Qed.

(** A string in which the separator does not occur is its only piece. *)
Lemma split_go_no_sep (sep : string) (s : string) :
  forall cur : string,
    contains sep s = false -> split_go sep O cur s = [String.rev cur +:+ s].
Proof.
  induction s as [|c s IH]; intros cur Hno.
  - cbn [split_go]. by rewrite append_empty_r.
  - rewrite contains_cons in Hno. apply orb_false_iff in Hno as [Hpre Hrest].
    cbn [split_go]. rewrite Hpre, (IH _ Hrest). f_equal.
    unfold String.rev. cbn [String.rev_app]. by rewrite !rev_app_append.
Qed.

Lemma split_no_sep (sep s : string) : contains sep s = false -> split sep s = [s].
Proof. intros Hno. unfold split. by rewrite split_go_no_sep. Qed.

Lemma last_of_nonempty {A} (l : list A) (d : A) : l <> [] -> last l = Some (List.last l d).
Proof.
  induction l as [|x l IH]; [done|]. intros _.
  destruct l as [|y l]; [reflexivity|]. rewrite last_cons_cons. by apply IH.
Qed.

Lemma split_nonempty (sep s : string) : split sep s <> [].
Proof.
  pose proof (split_length sep s) as Hlen. destruct (split sep s); [simpl in Hlen; lia|done].
Qed.

Lemma lower_ascii_idemp (c : Ascii.ascii) : lower_ascii (lower_ascii c) = lower_ascii c.
Proof. destruct c as [[] [] [] [] [] [] [] []]; vm_compute; reflexivity. Qed.

Lemma lower_idemp (s : string) : lower (lower s) = lower s.
Proof. induction s as [|c s IH]; [reflexivity|]. cbn. by rewrite lower_ascii_idemp, IH. Qed.

Lemma is_space_lower_ascii (c : Ascii.ascii) : Ascii.is_space (lower_ascii c) = Ascii.is_space c.
Proof. destruct c as [[] [] [] [] [] [] [] []]; vm_compute; reflexivity. Qed.

Lemma lower_lstrip (s : string) : lower (lstrip s) = lstrip (lower s).
Proof.
  induction s as [|c s IH]; [reflexivity|]. cbn [lstrip lower].
  rewrite is_space_lower_ascii. destruct (Ascii.is_space c); [exact IH|reflexivity].
Qed.

Lemma lower_rev_app (s acc : string) :
  lower (String.rev_app s acc) = String.rev_app (lower s) (lower acc).
Proof. revert acc. induction s as [|c s IH]; intros acc; [reflexivity|]. cbn. by rewrite IH. Qed.

Lemma lower_rev (s : string) : lower (String.rev s) = String.rev (lower s).
Proof. apply lower_rev_app. Qed.

Lemma lower_strip (s : string) : lower (strip s) = strip (lower s).
Proof.
  unfold strip, rstrip. by rewrite lower_rev, lower_lstrip, lower_rev, lower_lstrip.
Qed.

End PyFacts.

(** ** Restrictions, clients and authentication *)
Module AuthFacts.

Import PyFacts Auth.
Local Open Scope py_scope.

(** The guard of [_parse_restriction] holds for every list of parts that
    [split] can yield: [1 > len(parts)] is false, so its negated conjunction
    with [len(parts) <= 4] is true. *)
Lemma parse_guard_always_raises (parts : list string) :
  (1 <= length parts)%nat ->
  negb (bool_decide (length parts < 1)%nat && bool_decide (length parts <= 4)%nat) = true.
Proof.
  intros Hlen. destruct (bool_decide_reflect (length parts < 1)%nat) as [Hlt|_]; [lia|reflexivity].
Qed.

(** A restriction that has not been parsed cannot be parsed: the call raises
    [RestrictionError] at the guard and leaves the object as it was. *)
Lemma parse_unparsed_raises (r : Restriction) :
  _parsed r = false ->
  _parse_restriction r = (Raised (invalid_restriction (raw_restriction r)), r).
Proof.
  intros Hp. unfold _parse_restriction, bind, get. rewrite Hp.
  rewrite parse_guard_always_raises by apply split_length. reflexivity.
Qed.

(** A restriction that is marked as parsed is left alone. *)
Lemma parse_parsed_returns (r : Restriction) :
  _parsed r = true -> _parse_restriction r = (Returned tt, r).
Proof. intros Hp. unfold _parse_restriction, bind, get. rewrite Hp. reflexivity. Qed.

Lemma permits_read_unparsed (r : Restriction) index document field :
  _parsed r = false ->
  permits_read index document field r = (Raised (invalid_restriction (raw_restriction r)), r).
Proof. intros Hp. unfold permits_read, bind. rewrite parse_unparsed_raises by done. reflexivity. Qed.

Lemma permits_write_unparsed (r : Restriction) index document field :
  _parsed r = false ->
  permits_write index document field r = (Raised (invalid_restriction (raw_restriction r)), r).
Proof. intros Hp. unfold permits_write, bind. rewrite parse_unparsed_raises by done. reflexivity. Qed.

(** The write gate itself: on an object whose state says parsed and
    read-only, [permits_write] returns [False]. *)
Lemma permits_write_parsed_read_only (r : Restriction) index document field :
  _parsed r = true -> _read_only r = Some true ->
  permits_write index document field r = (Returned false, r).
Proof.
  intros Hp Hro. unfold permits_write, bind. rewrite parse_parsed_returns by done.
  unfold get. rewrite Hro. reflexivity.
Qed.

(** The tier check of [_apply_restriction]: some plain pattern matches, and
    no exclude matches or some include does. *)
Lemma apply_restriction_tier (subject : string) (patterns includes excludes : list string) :
  _apply_restriction subject patterns includes excludes =
  any (fun p => pattern_match p subject) patterns
  && (negb (any (fun p => pattern_match p subject) excludes)
      || any (fun p => pattern_match p subject) includes).
Proof.
  unfold _apply_restriction.
  destruct (any _ patterns); simpl; [|reflexivity].
  destruct (any _ excludes); reflexivity.
Qed.

Lemma apply_restriction_iff (subject : string) (patterns includes excludes : list string) :
  _apply_restriction subject patterns includes excludes = true <->
  (exists p, p ∈ patterns /\ pattern_match p subject = true) /\
  ((forall p, p ∈ excludes -> pattern_match p subject = false) \/
   (exists p, p ∈ includes /\ pattern_match p subject = true)).
Proof.
  rewrite apply_restriction_tier, andb_true_iff, orb_true_iff, negb_true_iff.
  unfold any. rewrite !existsb_exists.
  setoid_rewrite <- list_elem_of_In.
  split; intros [Hp He]; (split; [exact Hp|]).
  - destruct He as [He|Hi]; [left|right; exact Hi].
    intros p Hin. destruct (pattern_match p subject) eqn:Hm; [|reflexivity].
    assert (existsb (fun p => pattern_match p subject) excludes = true) as Hex.
    { apply existsb_exists. exists p. split; [by apply list_elem_of_In|done]. }
    congruence.
  - destruct He as [He|Hi]; [left|right; exact Hi].
    destruct (existsb _ excludes) eqn:Hex; [|reflexivity].
    apply existsb_exists in Hex as (p & Hin & Hm).
    apply list_elem_of_In in Hin. rewrite (He p Hin) in Hm. discriminate.
Qed.

(** The tier check on the pattern lists of the rules of the spec. *)
Example tier_logs_app : _apply_restriction "logs-app" ["logs-*"] [] ["logs-secret"] = true.
Proof. reflexivity. Qed.
Example tier_logs_secret : _apply_restriction "logs-secret" ["logs-*"] [] ["logs-secret"] = false.
Proof. reflexivity. Qed.
Example tier_logs_secret_readable :
  _apply_restriction "logs-secret-readable" ["logs-*"] ["logs-secret-readable"] ["logs-secret"]
  = true.
Proof. reflexivity. Qed.

(** One scope segment, parsed past the guard: the tokens go to the three
    lists by prefix; a segment without plain pattern is an error. *)
Example parse_section_sorts :
  parse_section Index "index" "logs-*, -logs-secret,+logs-secret-readable" (new_Restriction "")
  = (Returned tt,
     append_include Index "logs-secret-readable"
       (append_exclude Index "logs-secret" (append_pattern Index "logs-*" (new_Restriction "")))).
Proof. reflexivity. Qed.
Example parse_section_needs_pattern :
  (parse_section DocType "document type" "-events,+audit" (new_Restriction "r")).1
  = Raised (no_patterns "document type" "r").
Proof. reflexivity. Qed.

(** C1.  Parsing does not succeed on a well-formed rule: for
    ["read/logs-*"] (two segments, one plain index pattern)
    [_parse_restriction] raises [RestrictionError], and so it does for every
    raw source, whatever its number of segments. *)
Theorem parse_restriction_raises_on_wellformed :
  _parse_restriction (new_Restriction "read/logs-*")
  = (Raised (invalid_restriction "read/logs-*"), new_Restriction "read/logs-*")
  /\ forall raw : string,
       _parse_restriction (new_Restriction raw)
       = (Raised (invalid_restriction raw), new_Restriction raw).
Proof.
  split; [reflexivity|]. intros raw. by apply parse_unparsed_raises.
Qed.

(** C3.  On the read-only rule ["read/logs-*"], [permits_write] does not
    return [False]: it raises the [RestrictionError] of the parse step, as it
    does on every freshly built restriction. *)
Theorem permits_write_read_only_raises :
  permits_write "logs-2020" None None (new_Restriction "read/logs-*")
  = (Raised (invalid_restriction "read/logs-*"), new_Restriction "read/logs-*")
  /\ forall (rest index : string) (document field : option string),
       (permits_write index document field (new_Restriction ("read/" +:+ rest))).1
       = Raised (invalid_restriction ("read/" +:+ rest)).
Proof.
  split; [reflexivity|]. intros rest index document field.
  by rewrite permits_write_unparsed.
Qed.

(** C4.  On the rules of the claim, [permits_write] returns neither [True]
    nor [False]: each call raises the [RestrictionError] of the parse step. *)
Theorem permits_write_examples_raise :
  (permits_write "logs-app" None None (new_Restriction "write/logs-*,-logs-secret")).1
  = Raised (invalid_restriction "write/logs-*,-logs-secret")
  /\ (permits_write "logs-secret" None None (new_Restriction "write/logs-*,-logs-secret")).1
     = Raised (invalid_restriction "write/logs-*,-logs-secret")
  /\ (permits_write "logs-secret-readable" None None
        (new_Restriction "write/logs-*,-logs-secret,+logs-secret-readable")).1
     = Raised (invalid_restriction "write/logs-*,-logs-secret,+logs-secret-readable").
Proof. repeat split; reflexivity. Qed.


(** *** Clients *)

(** C2, as amended.  For a client whose [roles] is [None], [can_read] and
    [can_write] raise [TypeError] (the iteration over [self.roles] fails) for
    every index, document type and field, and leave the client as it was;
    neither call returns [True]. *)
Theorem can_with_null_roles_raises (c : Client) (index : string) (document field : option string) :
  roles c = None ->
  can_read index document field c = (Raised TypeError, c)
  /\ can_write index document field c = (Raised TypeError, c).
Proof.
  intros Hroles. unfold can_read, can_write, can. rewrite Hroles. split; reflexivity.
Qed.

(** The amended C2 on a client as [Client.__init__] builds it. *)
Lemma can_with_null_roles_raises_witness :
  roles (new_Client "10.0.0.1" 9200) = None
  /\ can_read "logs-2020" None None (new_Client "10.0.0.1" 9200)
     = (Raised TypeError, new_Client "10.0.0.1" 9200)
  /\ can_write "logs-2020" None None (new_Client "10.0.0.1" 9200)
     = (Raised TypeError, new_Client "10.0.0.1" 9200).
Proof.
  split; [reflexivity|].
  apply (can_with_null_roles_raises (new_Client "10.0.0.1" 9200) "logs-2020" None None).
  reflexivity.
Defined.

(** C2, counterexample.  The client that [Client("10.0.0.1", 9200)] builds
    has [roles] [None]; [can_read] on it does not return [False], it raises
    [TypeError]. *)
Lemma can_read_null_roles_counterexample :
  roles (new_Client "10.0.0.1" 9200) = None
  /\ (can_read "logs-2020" None None (new_Client "10.0.0.1" 9200)).1 = Raised TypeError
  /\ (can_read "logs-2020" None None (new_Client "10.0.0.1" 9200)).1 <> Returned false.
Proof. split; [reflexivity|]. split; [reflexivity|discriminate]. Qed.

(** With a populated, empty role list both calls return [False]. *)
Lemma can_with_no_roles (c : Client) (index : string) (document field : option string) :
  roles c = Some [] ->
  (can_read index document field c).1 = Returned false
  /\ (can_write index document field c).1 = Returned false.
Proof.
  intros Hroles. unfold can_read, can_write, can. rewrite Hroles. split; reflexivity.
Qed.

(** *** Authentication *)
Section Authenticate.

Variable gethostbyaddr : string -> option string.

(** [populate] touches [groups] and [roles] only. *)
Lemma populate_frame (self : Auth) (client : Client) :
  let client' := (populate self client).2 in
  address client' = address client /\ port client' = port client
  /\ name client' = name client /\ authenticated client' = authenticated client
  /\ username client' = username client /\ password client' = password client.
Proof.
  unfold populate, bind, get, modify, ret, raise.
  destruct (group_backend self) as [backend|], (username client) as [u|] eqn:Hu; simpl;
    try destruct (backend _) as [memberships|[]]; simpl;
    try match goal with |- context [groups client] => destruct (groups client) eqn:Hg end; simpl;
    try destruct (role_backend self _) as [[roles|]|[]]; simpl; done.
Qed.

Lemma finish_not_False (self : Auth) (populate_arg : bool) (client : Client) :
  (finish self populate_arg client).1 <> Returned false.
Proof.
  unfold finish, bind, modify, ret. destruct populate_arg; simpl; [|discriminate].
  destruct (populate self client) as [[[]|e] client']; simpl; discriminate.
Qed.

Lemma finish_without_populate (self : Auth) (client : Client) :
  finish self false client = (Returned true, set_authenticated true client).
Proof. reflexivity. Qed.






End Authenticate.



Example authenticate_unknown_address :
  authenticate sample_resolver sample_auth true (new_Client "10.0.0.3" 9200)
  = (Returned false, new_Client "10.0.0.3" 9200).
Proof. reflexivity. Qed.
Example authenticate_any_port :
  authenticate sample_resolver sample_auth true (new_Client "10.0.0.1" 40000)
  = (Returned true,
     {| address := "10.0.0.1"; port := 40000; name := Some "kibana.local";
        authenticated := true; username := None; password := None;
        groups := Some []; roles := Some [] |}).
Proof. reflexivity. Qed.
Example authenticate_listed_port :
  authenticate sample_resolver sample_auth true (new_Client "10.0.0.2" 9200)
  = (Returned true,
     {| address := "10.0.0.2"; port := 9200; name := Some "10.0.0.2:9200";
        authenticated := true; username := None; password := None;
        groups := Some []; roles := Some [] |}).
Proof. reflexivity. Qed.
Example authenticate_other_port :
  authenticate sample_resolver sample_auth true (new_Client "10.0.0.2" 9300)
  = (Returned false, new_Client "10.0.0.2" 9300).
Proof. reflexivity. Qed.


(** *** The permission check *)

(** X8.  [_check_permission] grants exactly when the request and the
    restriction have the same depth (a field is given iff there are field
    patterns, a document type iff there are type patterns), the index tier
    passes, and, when a document type is given, the type tier passes and so
    does the field tier for a given field.  Without document type the field
    is not checked. *)
Theorem check_permission_iff (self : Restriction) (index : string) (document field : option string) :
  _check_permission self index document field = true <->
  (field = None <-> _field_patterns self = [])
  /\ (document = None <-> _type_patterns self = [])
  /\ _apply_restriction index (_index_patterns self) (_index_includes self) (_index_excludes self)
     = true
  /\ (forall d, document = Some d ->
        _apply_restriction d (_type_patterns self) (_type_includes self) (_type_excludes self)
        = true
        /\ forall f, field = Some f ->
             _apply_restriction f (_field_patterns self) (_field_includes self)
               (_field_excludes self) = true).
Proof.
  unfold _check_permission.
  generalize (_apply_restriction index (_index_patterns self) (_index_includes self)
                (_index_excludes self)).
  intros bi.
  destruct field as [f|], document as [d|];
    destruct (_field_patterns self) as [|fp fps] eqn:Hfp;
    destruct (_type_patterns self) as [|tp tps] eqn:Htp;
    cbn [nonempty];
    rewrite ?(bool_decide_eq_true_2 (@None string = None)) by reflexivity;
    rewrite ?(bool_decide_eq_false_2 (@None string <> None)) by (intros Hn; by apply Hn);
    rewrite ?(bool_decide_eq_true_2 (Some _ <> None)) by discriminate;
    rewrite ?(bool_decide_eq_false_2 (Some _ = None)) by discriminate;
    cbn [andb orb negb].
  all: destruct bi; cbn [negb];
    try (destruct (_apply_restriction d (_type_patterns self) (_type_includes self) (_type_excludes self)) eqn:Hd; rewrite ?Htp in Hd; rewrite ?Hd; cbn [negb]).
  all: try (split; [discriminate|]; intros ([H1 H2] & [H3 H4] & H5 & H6); try discriminate;
         first [ by specialize (H1 eq_refl) | by specialize (H2 eq_refl)
               | by specialize (H3 eq_refl) | by specialize (H4 eq_refl)
               | destruct (H6 d eq_refl) as [H7 _]; congruence ]).
  all: split;
    [ intros Hf; repeat (first [split | intro]); simplify_eq; done
    | intros (_ & _ & _ & H6); try reflexivity ].
  destruct (H6 d eq_refl) as [_ H]. exact (H f eq_refl).
Qed.


(** *** The order of the restrictions *)

Lemma any_restriction_outcome (permits : M Restriction bool) (rs : list Restriction) :
  (any_restriction permits rs).1 = first_decisive permits rs.
Proof.
  induction rs as [|r rs IH]; [reflexivity|]. cbn [any_restriction first_decisive].
  destruct (permits r) as [[[]|e] r']; cbn [fst]; try reflexivity.
  destruct (any_restriction permits rs) as [o rs']. exact IH.
Qed.

Lemma first_decisive_app (permits : M Restriction bool) (l1 l2 : list Restriction) :
  first_decisive permits (l1 ++ l2)
  = match first_decisive permits l1 with
    | Returned false => first_decisive permits l2
    | o => o
    end.
Proof.
  induction l1 as [|r l1 IH]; [reflexivity|]. cbn [app first_decisive].
  destruct (permits r).1 as [[]|e]; [reflexivity|exact IH|reflexivity].
Qed.

Lemma any_role_outcome (permits : M Restriction bool) (rl : list Role) :
  (any_role permits rl).1 = first_decisive permits (concat (restrictions <$> rl)).
Proof.
  induction rl as [|role rl IH]; [reflexivity|].
  rewrite fmap_cons. cbn [concat any_role]. rewrite first_decisive_app.
  rewrite <- any_restriction_outcome.
  destruct (any_restriction permits (restrictions role)) as [[[]|e] rs']; cbn [fst];
    try reflexivity.
  destruct (any_role permits rl) as [o rl']. exact IH.
Qed.

Lemma first_decisive_false (permits : M Restriction bool) (l : list Restriction) :
  first_decisive permits l = Returned false <->
  Forall (fun r => (permits r).1 = Returned false) l.
Proof.
  induction l as [|r l IH]; cbn [first_decisive].
  - split; [constructor|reflexivity].
  - destruct (permits r).1 as [[]|e] eqn:Hr.
    + split; [discriminate|]. intros Hall. inversion Hall; congruence.
    + rewrite IH. split; [by constructor|]. intros Hall. by inversion Hall.
    + split; [discriminate|]. intros Hall. inversion Hall; congruence.
Qed.

Lemma first_decisive_decided (permits : M Restriction bool) (l : list Restriction)
  (o : outcome bool) :
  o <> Returned false ->
  first_decisive permits l = o <->
  exists before r after,
    l = before ++ r :: after
    /\ Forall (fun r' => (permits r').1 = Returned false) before
    /\ (permits r).1 = o.
Proof.
  intros Ho. induction l as [|r l IH]; cbn [first_decisive].
  - split; [congruence|]. intros (before & r & after & Heq & _). by destruct before.
  - destruct (permits r).1 as [[]|e] eqn:Hr.
    + split.
      * intros <-. exists [], r, l. split; [reflexivity|]. split; [constructor|exact Hr].
      * intros (before & r1 & after & Heq & Hall & Hdec).
        destruct before as [|r0 before]; injection Heq as Hr0 Hl; subst r.
        -- congruence.
        -- inversion Hall; congruence.
    + rewrite IH. split.
      * intros (before & r1 & after & Heq & Hall & Hdec).
        exists (r :: before), r1, after. rewrite Heq.
        split; [reflexivity|]. split; [by constructor|exact Hdec].
      * intros (before & r1 & after & Heq & Hall & Hdec).
        destruct before as [|r0 before]; injection Heq as Hr0 Hl; subst r.
        -- congruence.
        -- exists before, r1, after.
           split; [exact Hl|]. split; [by inversion Hall|exact Hdec].
    + split.
      * intros <-. exists [], r, l. split; [reflexivity|]. split; [constructor|exact Hr].
      * intros (before & r1 & after & Heq & Hall & Hdec).
        destruct before as [|r0 before]; injection Heq as Hr0 Hl; subst r.
        -- congruence.
        -- inversion Hall; congruence.
Qed.

(** X9.  [can_read] and [can_write] ask the restrictions of a populated
    client in order, role by role: the call returns [True] exactly when some
    restriction permits and every one before it returned [False]; it returns
    [False] exactly when every restriction returns [False]; and it raises
    exactly the exception of the first restriction that raises, when every
    one before it returned [False]. *)
Theorem can_decides_in_order (permits : M Restriction bool) (c : Client) (rl : list Role) :
  roles c = Some rl ->
  let flat := concat (restrictions <$> rl) in
  let decided_by (o : outcome bool) :=
    exists before r after,
      flat = before ++ r :: after
      /\ Forall (fun r' => (permits r').1 = Returned false) before
      /\ (permits r).1 = o in
  ((can permits c).1 = Returned true <-> decided_by (Returned true))
  /\ ((can permits c).1 = Returned false <->
      Forall (fun r => (permits r).1 = Returned false) flat)
  /\ (forall e, (can permits c).1 = Raised e <-> decided_by (Raised e)).
Proof.
  intros Hroles flat decided_by. subst decided_by flat. cbv beta.
  assert ((can permits c).1 = first_decisive permits (concat (restrictions <$> rl))) as ->.
  { unfold can. rewrite Hroles. rewrite <- any_role_outcome.
    by destruct (any_role permits rl). }
  split; [by apply first_decisive_decided|].
  split; [apply first_decisive_false|].
  intros e. by apply first_decisive_decided.
Qed.

(** X9 on a client with an empty role and a role with two rules: the first
    rule asked raises, and so does the call. *)
Lemma can_decides_in_order_witness :
  let rl := [ {| role_name := "none"; restrictions := [] |};
              {| role_name := "logs";
                 restrictions := [new_Restriction "read/logs-*"; new_Restriction "write/x"] |} ] in
  let c := set_roles (Some rl) (new_Client "10.0.0.1" 9200) in
  roles c = Some rl
  /\ ((can_read "logs-1" None None c).1 = Raised (invalid_restriction "read/logs-*") <->
      exists before r after,
        concat (restrictions <$> rl) = before ++ r :: after
        /\ Forall (fun r' => (permits_read "logs-1" None None r').1 = Returned false) before
        /\ (permits_read "logs-1" None None r).1 = Raised (invalid_restriction "read/logs-*")).
Proof.
  cbv zeta. split; [reflexivity|].
  apply (can_decides_in_order (permits_read "logs-1" None None)
           (set_roles (Some [ {| role_name := "none"; restrictions := [] |};
              {| role_name := "logs";
                 restrictions := [new_Restriction "read/logs-*"; new_Restriction "write/x"] |} ])
              (new_Client "10.0.0.1" 9200))).
  reflexivity.
Defined.


(** *** Population and its failures *)

(** X10.  A client that supplies both credentials is not checked against
    [allow_from]: [authenticate] never returns [False] for it, names it by
    its user name whatever population does, returns [True] when population
    is not asked for, and gives the same result for every address table and
    every resolver. *)
Theorem authenticate_with_credentials (gethostbyaddr : string -> option string) (self : Auth)
  (populate_arg : bool) (client : Client) (u pw : string) :
  username client = Some u -> password client = Some pw ->
  let result := authenticate gethostbyaddr self populate_arg client in
  result.1 <> Returned false
  /\ name result.2 = Some u
  /\ (populate_arg = false ->
      result = (Returned true, set_authenticated true (set_name (Some u) client)))
  /\ (forall gethostbyaddr' allow_from',
        authenticate gethostbyaddr'
          {| allow_from := allow_from'; role_backend := role_backend self;
             group_backend := group_backend self |} populate_arg client
        = result).
Proof.
  intros Hu Hpw result. subst result. unfold authenticate. rewrite Hu, Hpw.
  cbn [orb]. rewrite !(bool_decide_eq_false_2 (Some _ = None)) by discriminate. cbn [orb].
  split; [apply finish_not_False|]. split; [|split].
  - unfold finish, bind, modify, ret. destruct populate_arg; [|reflexivity].
    pose proof (populate_frame self (set_name (Some u) client)) as Hframe. cbn zeta in Hframe.
    destruct (populate self (set_name (Some u) client)) as [[[]|e] client1]; cbn [fst snd] in *;
      tauto.
  - intros ->. reflexivity.
  - intros gethostbyaddr' allow_from'. reflexivity.
Qed.

Lemma authenticate_with_credentials_witness :
  let client :=
    {| address := "192.0.2.7"; port := 40000; name := None; authenticated := false;
       username := Some "kibana"; password := Some "secret"; groups := None; roles := None |} in
  (username client = Some "kibana" /\ password client = Some "secret")
  /\ (authenticate sample_resolver sample_auth true client).1 <> Returned false
  /\ name (authenticate sample_resolver sample_auth true client).2 = Some "kibana".
Proof.
  cbv zeta. split; [split; reflexivity|].
  destruct (authenticate_with_credentials sample_resolver sample_auth true
              {| address := "192.0.2.7"; port := 40000; name := None; authenticated := false;
                 username := Some "kibana"; password := Some "secret";
                 groups := None; roles := None |} "kibana" "secret" eq_refl eq_refl)
    as (Hnot & Hname & _).
  split; [exact Hnot|exact Hname].
Defined.

(** X11.  When the group lookup of a fresh client with credentials fails
    with an LDAP error, [authenticate] still returns [True]: the error is
    swallowed, no role lookup is made, [groups] and [roles] stay [None], and
    every later [can_read] or [can_write] on the client raises [TypeError]. *)
Theorem ldap_failure_leaves_roles_unset (gethostbyaddr : string -> option string) (self : Auth)
  (backend : Client -> outcome (list string)) (client : Client) (u pw : string)
  (index : string) (document field : option string) :
  username client = Some u -> password client = Some pw ->
  groups client = None -> roles client = None ->
  group_backend self = Some backend ->
  backend (set_name (Some u) client) = Raised LDAPError ->
  let result := authenticate gethostbyaddr self true client in
  result = (Returned true, set_authenticated true (set_name (Some u) client))
  /\ (can_read index document field result.2).1 = Raised TypeError
  /\ (can_write index document field result.2).1 = Raised TypeError.
Proof.
  intros Hu Hpw Hgroups Hroles Hbackend Hfail result.
  assert (result = (Returned true, set_authenticated true (set_name (Some u) client))) as ->.
  { subst result. unfold authenticate. rewrite Hu, Hpw.
    rewrite !(bool_decide_eq_false_2 (Some _ = None)) by discriminate. cbn [orb].
    unfold finish, bind at 1. unfold populate, bind, get.
    rewrite Hbackend. cbn [username set_name]. rewrite Hu, Hfail.
    unfold ret at 1. cbn [groups set_name]. rewrite Hgroups. reflexivity. }
  split; [reflexivity|]. cbn [snd].
  unfold can_read, can_write, can. cbn [roles set_authenticated set_name].
  rewrite Hroles. split; reflexivity.
Qed.

(** A configuration whose directory is down, and a fresh client with
    credentials. *)
Lemma ldap_failure_leaves_roles_unset_witness :
  let self := {| allow_from := ∅; role_backend := fun _ => Returned (Some []);
                 group_backend := Some (fun _ => Raised LDAPError) |} in
  let client :=
    {| address := "192.0.2.7"; port := 40000; name := None; authenticated := false;
       username := Some "kibana"; password := Some "secret"; groups := None; roles := None |} in
  authenticate sample_resolver self true client
  = (Returned true, set_authenticated true (set_name (Some "kibana") client))
  /\ (can_read "logs-1" None None (authenticate sample_resolver self true client).2).1
     = Raised TypeError
  /\ (can_write "logs-1" None None (authenticate sample_resolver self true client).2).1
     = Raised TypeError.
Proof.
  cbv zeta.
  apply (ldap_failure_leaves_roles_unset sample_resolver
           {| allow_from := ∅; role_backend := fun _ => Returned (Some []);
              group_backend := Some (fun _ => Raised LDAPError) |}
           (fun _ => Raised LDAPError)
           {| address := "192.0.2.7"; port := 40000; name := None; authenticated := false;
              username := Some "kibana"; password := Some "secret";
              groups := None; roles := None |} "kibana" "secret"); reflexivity.
Defined.

(** X12.  When the group lookup concludes without backend call (no group
    backend, or no user name) and the role backend returns [None], [populate]
    raises [TypeError] after it has set [groups] to the empty list and
    [roles] to [None]; [authenticate] lets the error through and does not
    mark the client as authenticated. *)
Theorem role_backend_none_raises (self : Auth) (client : Client) :
  group_backend self = None \/ username client = None ->
  role_backend self (set_groups (Some []) client) = Returned None ->
  populate self client = (Raised TypeError, set_roles None (set_groups (Some []) client))
  /\ finish self true client = (Raised TypeError, set_roles None (set_groups (Some []) client))
  /\ authenticated (finish self true client).2 = authenticated client.
Proof.
  intros Hgroup Hrole.
  assert (populate self client
          = (Raised TypeError, set_roles None (set_groups (Some []) client))) as Hpop.
  { unfold populate, bind, get.
    assert ((match group_backend self, username client with
             | Some get_group_memberships, Some _ =>
                 match get_group_memberships client with
                 | Returned memberships => modify (set_groups (Some memberships))
                 | Raised LDAPError => ret tt
                 | Raised error => raise error
                 end
             | _, _ => modify (set_groups (Some []))
             end) client = (Returned tt, set_groups (Some []) client)) as ->.
    { destruct Hgroup as [-> | ->]; [reflexivity|].
      destruct (group_backend self); reflexivity. }
    cbn [groups set_groups]. rewrite Hrole. reflexivity. }
  split; [exact Hpop|].
  assert (finish self true client
          = (Raised TypeError, set_roles None (set_groups (Some []) client))) as Hfin.
  { unfold finish, bind at 1. by rewrite Hpop. }
  split; [exact Hfin|]. rewrite Hfin. reflexivity.
Qed.

Lemma role_backend_none_raises_witness :
  let self := {| allow_from := ∅; role_backend := fun _ => Returned None;
                 group_backend := None |} in
  populate self (new_Client "10.0.0.1" 9200)
  = (Raised TypeError, set_roles None (set_groups (Some []) (new_Client "10.0.0.1" 9200))).
Proof.
  cbv zeta.
  apply (role_backend_none_raises
           {| allow_from := ∅; role_backend := fun _ => Returned None; group_backend := None |}
           (new_Client "10.0.0.1" 9200)); [left; reflexivity|reflexivity].
Defined.

End AuthFacts.

(** ** HTTP headers and framing *)
Module HttpFacts.

Import PyFacts Http.
Local Open Scope py_scope.

Lemma has_header_lookup (name : string) (self : HttpHeaders) :
  has_header name self = true <-> is_Some (self !! lower name).
Proof. unfold has_header. apply bool_decide_eq_true. Qed.


Lemma getitem_present (name : string) (self : HttpHeaders) :
  has_header name self = true -> exists value, getitem name self = Returned value.
Proof.
  intros [v Hv]%has_header_lookup. unfold getitem. rewrite Hv. by eexists.
Qed.

Lemma getheaders_present (name v : string) (self : HttpHeaders) :
  v ∈ getheaders name self -> has_header name self = true.
Proof.
  unfold getheaders. intros Hin. apply has_header_lookup.
  destruct (self !! lower name); [by eexists|]. by apply elem_of_nil in Hin.
Qed.

(** *** Framing *)

(** [any] over the occurrences is [False] exactly when each of them reads as
    the same integer. *)
Lemma any_differs_false (content_length : Z) (values : list string) :
  any_differs content_length values = Some false <->
  Forall (fun v => int v = Some content_length) values.
Proof.
  induction values as [|v values IH]; simpl.
  - split; [constructor|reflexivity].
  - destruct (int v) as [n|] eqn:Hv.
    + case_bool_decide as Hn.
      * split; [discriminate|]. intros Hall. inversion Hall; congruence.
      * subst n. rewrite IH. split; [by constructor|].
        intros Hall. by inversion Hall.
    + split; [discriminate|]. intros Hall. inversion Hall; congruence.
Qed.

(** [has_proper_framing] does not raise. *)
Lemma has_proper_framing_returns (self : HttpContext) :
  exists b, has_proper_framing self = Returned b.
Proof.
  unfold has_proper_framing.
  destruct (has_header "Content-Length" (framing_headers self)) eqn:Hcl.
  - destruct (getitem_present _ _ Hcl) as [v ->].
    destruct (int v) as [cl|]; [|by eexists].
    case_bool_decide; [by eexists|].
    destruct (any_differs _ _) as [[]|]; try by eexists.
    destruct (has_header "Transfer-Encoding" _); by eexists.
  - destruct (has_header "Transfer-Encoding" _) eqn:Hte; [|by eexists].
    destruct (response self); [by eexists|].
    destruct (getitem_present _ _ Hte) as [v ->].
    case_bool_decide; by eexists.
Qed.

(** What a message that passes the check looks like. *)
Lemma has_proper_framing_true (self : HttpContext) :
  has_proper_framing self = Returned true ->
  (has_header "Content-Length" (framing_headers self) = true ->
   has_header "Transfer-Encoding" (framing_headers self) = false
   /\ exists content_length : Z,
        (0 <= content_length)%Z
        /\ Forall (fun v => int v = Some content_length)
                  (getheaders "Content-Length" (framing_headers self)))
  /\ (has_header "Transfer-Encoding" (framing_headers self) = true ->
      response self = None ->
      exists value, getitem "Transfer-Encoding" (framing_headers self) = Returned value
                    /\ lower (strip value) = "chunked").
Proof.
  unfold has_proper_framing.
  destruct (has_header "Content-Length" (framing_headers self)) eqn:Hcl.
  - destruct (getitem_present _ _ Hcl) as [v ->].
    destruct (int v) as [cl|]; [|discriminate].
    case_bool_decide as Hneg; [discriminate|].
    destruct (any_differs _ _) as [[]|] eqn:Hany; try discriminate.
    apply any_differs_false in Hany.
    destruct (has_header "Transfer-Encoding" _) eqn:Hte; [discriminate|].
    intros _. split; [|discriminate]. intros _. split; [reflexivity|].
    exists cl. split; [lia|exact Hany].
  - destruct (has_header "Transfer-Encoding" _) eqn:Hte.
    + destruct (response self) eqn:Hresp.
      * intros _. split; [discriminate|]. intros _ [=].
      * destruct (getitem_present _ _ Hte) as [v Hv]. rewrite Hv.
        case_bool_decide as Hch; [discriminate|].
        intros _. split; [discriminate|]. intros _ _. by exists v.
    + intros _. split; discriminate.
Qed.

Lemma not_true_returns_false (self : HttpContext) :
  has_proper_framing self <> Returned true -> has_proper_framing self = Returned false.
Proof.
  destruct (has_proper_framing_returns self) as [[] ->]; [congruence|reflexivity].
Qed.

(** C7.  [has_proper_framing] returns [False] for a message that has both a
    [Transfer-Encoding] and a [Content-Length] header; when an occurrence of
    [Content-Length] is not an integer, is negative, or differs from another
    occurrence; and for a request (a context without response) whose
    [Transfer-Encoding] is not [chunked].  It returns [True] for a request
    with [Transfer-Encoding: chunked] alone, and [False] for
    [Transfer-Encoding: identity] with [Content-Length: 5]. *)
Theorem has_proper_framing_rules :
  (forall self : HttpContext,
     has_header "Transfer-Encoding" (framing_headers self) = true ->
     has_header "Content-Length" (framing_headers self) = true ->
     has_proper_framing self = Returned false)
  /\ (forall (self : HttpContext) (v : string),
        v ∈ getheaders "Content-Length" (framing_headers self) ->
        int v = None \/ (exists n : Z, int v = Some n /\ (n < 0)%Z) ->
        has_proper_framing self = Returned false)
  /\ (forall (self : HttpContext) (v w : string),
        v ∈ getheaders "Content-Length" (framing_headers self) ->
        w ∈ getheaders "Content-Length" (framing_headers self) ->
        int v <> int w ->
        has_proper_framing self = Returned false)
  /\ (forall (self : HttpContext) (value : string),
        response self = None ->
        getitem "Transfer-Encoding" (headers (request self)) = Returned value ->
        lower (strip value) <> "chunked" ->
        has_proper_framing self = Returned false)
  /\ has_proper_framing
       {| request := {| headers := {[ "transfer-encoding" := "chunked" ]} |};
          response := None |} = Returned true
  /\ has_proper_framing
       {| request := {| headers := {[ "transfer-encoding" := "identity";
                                       "content-length" := "5" ]} |};
          response := None |} = Returned false.
Proof.
  repeat apply conj.
  - intros self Hte Hcl. apply not_true_returns_false. intros Htrue.
    apply has_proper_framing_true in Htrue as [Hc _].
    destruct (Hc Hcl) as [Hno _]. congruence.
  - intros self v Hin Hbad. apply not_true_returns_false. intros Htrue.
    apply has_proper_framing_true in Htrue as [Hc _].
    destruct (Hc (getheaders_present _ _ _ Hin)) as (_ & cl & Hpos & Hall).
    rewrite Forall_forall in Hall. specialize (Hall v Hin).
    destruct Hbad as [Hnone|(n & Hn & Hneg)]; [congruence|].
    rewrite Hn in Hall. injection Hall as ->. lia.
  - intros self v w Hv Hw Hdiff. apply not_true_returns_false. intros Htrue.
    apply has_proper_framing_true in Htrue as [Hc _].
    destruct (Hc (getheaders_present _ _ _ Hv)) as (_ & cl & _ & Hall).
    rewrite Forall_forall in Hall.
    rewrite (Hall v Hv), (Hall w Hw) in Hdiff. by apply Hdiff.
  - intros self value Hresp Hget Hch. apply not_true_returns_false. intros Htrue.
    apply has_proper_framing_true in Htrue as [_ Ht].
    assert (framing_headers self = headers (request self)) as Hfh.
    { unfold framing_headers. by rewrite Hresp. }
    rewrite Hfh in Ht.
    assert (has_header "Transfer-Encoding" (headers (request self)) = true) as Hte.
    { apply has_header_lookup. unfold getitem in Hget.
      destruct (headers (request self) !! lower "Transfer-Encoding"); [by eexists|discriminate]. }
    destruct (Ht Hte Hresp) as (value' & Hget' & Hok). congruence.
  - reflexivity.
  - reflexivity.
Qed.


(** [int] reads a sign that is followed by white space, as Python 2 does:
    such a [Content-Length] passes the check. *)
Example has_proper_framing_signed_length :
  has_proper_framing
    {| request := {| headers := {[ "content-length" := "+ 5" ]} |}; response := None |}
  = Returned true
  /\ has_proper_framing
       {| request := {| headers := {[ "content-length" := "- 5" ]} |}; response := None |}
     = Returned false.
Proof. split; reflexivity. Qed.

(** C7 on four requests, one for each way to fail the check. *)
Lemma has_proper_framing_rules_witness :
  has_proper_framing
    {| request := {| headers := {[ "transfer-encoding" := "chunked"; "content-length" := "12" ]} |};
       response := None |} = Returned false
  /\ has_proper_framing
       {| request := {| headers := {[ "content-length" := "12, -12" ]} |};
          response := None |} = Returned false
  /\ has_proper_framing
       {| request := {| headers := {[ "content-length" := "12, 13" ]} |};
          response := None |} = Returned false
  /\ has_proper_framing
       {| request := {| headers := {[ "transfer-encoding" := "gzip" ]} |};
          response := None |} = Returned false.
Proof.
  destruct has_proper_framing_rules as (Hboth & Hbad & Hdiff & Hchunked & _).
  repeat apply conj.
  - apply Hboth; reflexivity.
  - apply (Hbad _ "-12").
    + apply list_elem_of_In. vm_compute. tauto.
    + right. exists (-12)%Z. split; [reflexivity|lia].
  - apply (Hdiff _ "12" "13").
    + apply list_elem_of_In. vm_compute. tauto.
    + apply list_elem_of_In. vm_compute. tauto.
    + discriminate.
  - apply (Hchunked _ "gzip"); [reflexivity|reflexivity|discriminate].
Defined.

(** *** The [Via] header *)

(** C8.  [extend_via_field] loses entries: on a [Via] header with the two
    entries ["1.0 fred"] and ["1.1 example.com"], the call with
    [("1.1", "armor")] leaves ["1.1 example.com"] and ["1.1 armor"]; the
    entry ["1.0 fred"] is gone. *)
Theorem extend_via_field_drops_entries :
  let before : HttpHeaders := {[ "via" := "1.0 fred, 1.1 example.com" ]} in
  let after := extend_via_field "1.1" "armor" None before in
  getheaders "Via" before = ["1.0 fred"; "1.1 example.com"]
  /\ getheaders "Via" after = ["1.1 example.com"; "1.1 armor"]
  /\ "1.0 fred" ∈ getheaders "Via" before
  /\ "1.0 fred" ∉ getheaders "Via" after.
Proof.
  cbv zeta. repeat apply conj.
  - reflexivity.
  - reflexivity.
  - apply list_elem_of_In. vm_compute. tauto.
  - intros Hin. apply list_elem_of_In in Hin. vm_compute in Hin.
    destruct Hin as [H|[H|[]]]; discriminate.
Qed.

(** With at most one entry in the header nothing is lost. *)
Example extend_via_field_single :
  getheaders "Via" (extend_via_field "1.1" "armor" (Some "(ElasticArmor)")
                      ({[ "via" := "1.0 fred" ]} : HttpHeaders))
  = ["1.0 fred"; "1.1 armor (ElasticArmor)"].
Proof. reflexivity. Qed.
Example extend_via_field_fresh :
  getheaders "Via" (extend_via_field "1.1" "armor" None (∅ : HttpHeaders)) = ["1.1 armor"].
Proof. reflexivity. Qed.


(** *** Connection options *)

Lemma lower_keep_alive : lower "keep-alive" = "keep-alive".
Proof. reflexivity. Qed.










Example extract_sample :
  extract_connection_options sample_headers
  = (Returned {[ "keep-alive" := ("Keep-Alive", Parameters {[ "timeout" := "5"; "max" := "100" ]});
                 "x-foo" := ("X-Foo", Value "b");
                 "close" := ("close", NoValue) ]},
     {[ "host" := "es.local" ]}).
Proof. vm_compute. reflexivity. Qed.



(** The options are the pieces of the [Connection] value between [", "]:
    without the space after the comma the value is one option, which names
    no header here, and nothing is extracted. *)
Example extract_bare_comma :
  getheaders "Connection" ({[ "connection" := "close,X-Foo"; "x-foo" := "b" ]} : HttpHeaders)
  = ["close,X-Foo"]
  /\ extract_connection_options
       ({[ "connection" := "close,X-Foo"; "x-foo" := "b" ]} : HttpHeaders)
     = (Returned ∅, {[ "connection" := "close,X-Foo"; "x-foo" := "b" ]}).
Proof. split; vm_compute; reflexivity. Qed.

(** A [Keep-Alive] header without [name=value] parameters makes the call
    raise [ValueError]. *)
Example extract_raises :
  (extract_connection_options
     ({[ "connection" := "keep-alive"; "keep-alive" := "300" ]} : HttpHeaders)).1
  = Raised ValueError.
Proof. vm_compute. reflexivity. Qed.


(** *** Single and multiple values *)

Lemma last_split_last_value (value : string) :
  last (split ", " value) = Some (last_value value).
Proof.
  unfold last_value. destruct (contains ", " value) eqn:Hc.
  - apply last_of_nonempty, split_nonempty.
  - by rewrite split_no_sep.
Qed.

Lemma getitem_in_getheaders (name v : string) (self : HttpHeaders) :
  getitem name self = Returned v -> v ∈ getheaders name self.
Proof.
  unfold getitem, getheaders. destruct (self !! lower name) as [value|]; [|discriminate].
  intros [= <-]. pose proof (last_split_last_value value) as Hlast.
  apply last_Some in Hlast as [l' ->]. apply elem_of_app. right. by left.
Qed.

(** X1.  The single-value lookup [headers[name]] returns the last of the
    values that [getheaders(name)] returns, and raises [KeyError] exactly
    when [getheaders] returns the empty list. *)
Theorem getitem_is_last_of_getheaders (name : string) (self : HttpHeaders) :
  (forall v, getitem name self = Returned v <-> last (getheaders name self) = Some v)
  /\ (getitem name self = Raised (KeyError (lower name)) <-> getheaders name self = []).
Proof.
  unfold getitem, getheaders. destruct (self !! lower name) as [value|].
  - rewrite last_split_last_value. split.
    + intros v. split; intros [= ->]; reflexivity.
    + split; [discriminate|]. intros Hnil. by apply split_nonempty in Hnil.
  - split; [|done]. intros v. split; discriminate.
Qed.

(** X2.  [has_proper_framing] never raises, and it returns [True] exactly
    for a message such that: if it has a [Content-Length], it has no
    [Transfer-Encoding] and every occurrence of [Content-Length] reads as one
    and the same non-negative integer; and if it has a [Transfer-Encoding]
    and is a request without response, the last value of that header is
    [chunked] up to case and surrounding white space. *)
Theorem has_proper_framing_iff (self : HttpContext) :
  exists b : bool,
    has_proper_framing self = Returned b
    /\ (b = true <->
        (has_header "Content-Length" (framing_headers self) = true ->
         has_header "Transfer-Encoding" (framing_headers self) = false
         /\ exists content_length : Z,
              (0 <= content_length)%Z
              /\ Forall (fun v => int v = Some content_length)
                        (getheaders "Content-Length" (framing_headers self)))
        /\ (has_header "Transfer-Encoding" (framing_headers self) = true ->
            response self = None ->
            exists value, getitem "Transfer-Encoding" (framing_headers self) = Returned value
                          /\ lower (strip value) = "chunked")).
Proof.
  destruct (has_proper_framing_returns self) as [b Hb]. exists b. split; [exact Hb|].
  split.
  { intros ->. by apply has_proper_framing_true. }
  intros [Hcl Hte]. revert Hb. unfold has_proper_framing.
  destruct (has_header "Content-Length" (framing_headers self)) eqn:Hhas.
  - destruct (Hcl eq_refl) as (Hno & cl & Hpos & Hall).
    destruct (getitem_present _ _ Hhas) as [v Hv]. rewrite Hv.
    assert (int v = Some cl) as ->.
    { rewrite Forall_forall in Hall. apply Hall. by apply getitem_in_getheaders. }
    rewrite bool_decide_eq_false_2 by lia.
    apply any_differs_false in Hall. rewrite Hall, Hno. by intros [= <-].
  - destruct (has_header "Transfer-Encoding" (framing_headers self)) eqn:Hhas2;
      [|by intros [= <-]].
    destruct (response self) eqn:Hresp; [by intros [= <-]|].
    destruct (Hte eq_refl eq_refl) as (value & -> & Hok).
    rewrite bool_decide_eq_false_2 by (intros Hn; by apply Hn). by intros [= <-].
Qed.


(** *** [extend_via_field] on a header with at most one entry *)

Lemma prefix_comma_space (c : Ascii.ascii) (x : string) :
  String.prefix ", " (String c x)
  = Ascii.eqb c ","%char && match x with
                            | String d _ => Ascii.eqb d " "%char
                            | EmptyString => false
                            end.
Proof.
  cbn [String.prefix]. destruct (Ascii.ascii_dec "," c) as [<-|Hne].
  - rewrite Ascii.eqb_refl. cbn [andb]. destruct x as [|d x]; [reflexivity|].
    cbn [String.prefix].
    destruct (Ascii.ascii_dec " " d) as [<-|Hne];
      [rewrite Ascii.eqb_refl; destruct x; reflexivity|].
    symmetry. apply Ascii.eqb_neq. congruence.
  - symmetry. apply andb_false_intro1, Ascii.eqb_neq. congruence.
Qed.

(** Two strings without [", "], joined by [", "], split into the two. *)
Lemma split_go_joined (v e : string) :
  forall cur : string,
    contains ", " v = false -> contains ", " e = false ->
    split_go ", " O cur (v +:+ ", " +:+ e) = [String.rev cur +:+ v; e].
Proof.
  induction v as [|c v IH]; intros cur Hv He.
  - change ("" +:+ ", " +:+ e) with (String ","%char (String " "%char e)).
    cbn [split_go]. rewrite (prefix_comma_space ","%char (String " "%char e)).
    change (Ascii.eqb "," "," && Ascii.eqb " " " ") with true.
    cbn [Nat.pred String.length]. cbn [split_go].
    rewrite split_go_no_sep by done. by rewrite append_empty_r.
  - change (String c v +:+ ", " +:+ e) with (String c (v +:+ ", " +:+ e)).
    rewrite contains_cons in Hv. apply orb_false_iff in Hv as [Hpre Hrest].
    cbn [split_go].
    assert (String.prefix ", " (String c (v +:+ ", " +:+ e)) = false) as ->.
    { rewrite prefix_comma_space in Hpre |- *.
      destruct (Ascii.eqb c ","%char); [|reflexivity]. cbn [andb] in *.
      destruct v as [|d v]; [reflexivity|exact Hpre]. }
    rewrite (IH _ Hrest He). f_equal.
    unfold String.rev. cbn [String.rev_app]. by rewrite !rev_app_append.
Qed.

Lemma split_joined (v e : string) :
  contains ", " v = false -> contains ", " e = false ->
  split ", " (v +:+ ", " +:+ e) = [v; e].
Proof. intros Hv He. unfold split. by rewrite split_go_joined. Qed.

Lemma extend_via_field_value (p b : string) (c : option string) (self : HttpHeaders) :
  extend_via_field p b c self
  = <["via" := match last_value (default "" (self !! "via")) with
               | String d rest => join ", " [String d rest; via_entry p b c]
               | EmptyString => via_entry p b c
               end]> (delete "via" self).
Proof.
  unfold extend_via_field, get, getheader, setitem, delitem.
  change (lower "Via") with "via". fold (via_entry p b c).
  destruct (self !! "via") as [v|]; cbn [fmap option_fmap option_map from_option id].
  - destruct (last_value v); reflexivity.
  - change (last_value "") with "". reflexivity.
Qed.

(** X3.  [extend_via_field] changes no header but [Via], and when the new
    entry and the old [Via] value hold no [", "] nothing is lost: a missing
    or empty [Via] becomes the new entry, a single old entry is followed by
    the new one. *)
Theorem extend_via_field_keeps_single_entry (p b : string) (c : option string)
  (self : HttpHeaders) :
  contains ", " (via_entry p b c) = false ->
  (forall k, k <> "via" -> extend_via_field p b c self !! k = self !! k)
  /\ (self !! "via" = None \/ self !! "via" = Some "" ->
      getheaders "Via" (extend_via_field p b c self) = [via_entry p b c])
  /\ (forall v, self !! "via" = Some v -> v <> "" -> contains ", " v = false ->
      getheaders "Via" (extend_via_field p b c self) = [v; via_entry p b c]).
Proof.
  intros Hentry. rewrite extend_via_field_value. repeat apply conj.
  - intros k Hk. rewrite lookup_insert_ne by done. by apply lookup_delete_ne.
  - intros Hold. unfold getheaders. change (lower "Via") with "via".
    rewrite lookup_insert_eq.
    assert (last_value (default "" (self !! "via")) = "") as ->.
    { destruct Hold as [-> | ->]; reflexivity. }
    by apply split_no_sep.
  - intros v Hv Hne Hno. unfold getheaders. change (lower "Via") with "via".
    rewrite lookup_insert_eq, Hv. cbn [from_option id].
    unfold last_value. rewrite Hno.
    destruct v as [|d rest]; [done|].
    change (join ", " [String d rest; via_entry p b c])
      with (String d rest +:+ ", " +:+ via_entry p b c).
    by apply split_joined.
Qed.

(** X3 on a header with one entry. *)
Lemma extend_via_field_keeps_single_entry_witness :
  contains ", " (via_entry "1.1" "armor" None) = false
  /\ getheaders "Via" (extend_via_field "1.1" "armor" None
                         ({[ "via" := "1.0 fred"; "host" := "es.local" ]} : HttpHeaders))
     = ["1.0 fred"; "1.1 armor"].
Proof.
  split; [reflexivity|].
  apply (extend_via_field_keeps_single_entry "1.1" "armor" None
           {[ "via" := "1.0 fred"; "host" := "es.local" ]}); [reflexivity|reflexivity|done|reflexivity].
Defined.


(** *** Failure of [extract_connection_options] *)

Lemma dict_raises_ValueError (pairs : list (list string)) :
  forall (acc : gmap string string) (e : exn), dict acc pairs = Raised e -> e = ValueError.
Proof.
  induction pairs as [|pair pairs IH]; intros acc e; [discriminate|].
  destruct pair as [|k [|v [|w rest]]]; cbn [dict]; try (by intros [= <-]).
  apply IH.
Qed.

(** One round of the loop in general: it deletes at most the header the
    option names, and raises nothing but the [ValueError] of a [Keep-Alive]
    header that is there and does not parse. *)
Lemma extract_option_any (option : string) (options : Options) (self : HttpHeaders) :
  (exists options', extract_option option (options, self) = (Returned tt, (options', self))
                    \/ extract_option option (options, self)
                       = (Returned tt, (options', delitem option self)))
  \/ (extract_option option (options, self) = (Raised ValueError, (options, self))
      /\ lower option = "keep-alive" /\ is_Some (self !! "keep-alive")
      /\ keep_alive_ok self = false).
Proof.
  unfold extract_option, has_header.
  destruct (self !! lower option) as [v|] eqn:Hv.
  - rewrite bool_decide_eq_true_2 by eauto.
    destruct (String.eqb_spec (lower option) "keep-alive") as [Hka|Hka].
    + assert (getheaders option self = getheaders "keep-alive" self) as ->.
      { unfold getheaders. by rewrite Hka, lower_keep_alive. }
      fold (keep_alive_parameters self). unfold keep_alive_ok.
      destruct (keep_alive_parameters self) as [d|e] eqn:Hd.
      * left. eexists. right. reflexivity.
      * right. apply dict_raises_ValueError in Hd as ->.
        split; [reflexivity|]. split; [done|]. split; [|reflexivity].
        rewrite <- Hka. by exists v.
    + unfold getitem. rewrite Hv. left. eexists. right. reflexivity.
  - rewrite bool_decide_eq_false_2 by (intros [? [=]]).
    left. destruct (String.eqb (lower option) "keep-alive"); [eexists; by left|].
    destruct (String.eqb (lower option) "close"); eexists; by left.
Qed.

Lemma extract_loop_any (l : list string) :
  forall (options : Options) (self : HttpHeaders) o options' self',
    for_each l extract_option (options, self) = (o, (options', self')) ->
    (forall k, k ∉ lower <$> l -> self' !! k = self !! k)
    /\ (forall e, o = Raised e ->
          e = ValueError /\ "keep-alive" ∈ lower <$> l
          /\ is_Some (self !! "keep-alive") /\ self' !! "keep-alive" = self !! "keep-alive"
          /\ keep_alive_ok self' = false).
Proof.
  induction l as [|option l IH]; intros options self o options' self' Hrun.
  - cbn in Hrun. injection Hrun as <- <- <-. split; [done|]. intros e [=].
  - cbn [for_each] in Hrun. unfold bind at 1 in Hrun. rewrite fmap_cons.
    destruct (extract_option_any option options self)
      as [[options1 [Hstep|Hstep]]|(Hstep & Hka & Hsome & Hbad)];
      rewrite Hstep in Hrun.
    + apply IH in Hrun as [Hframe Hraise]. split.
      * intros k Hk. apply Hframe. intros Hin. apply Hk. by right.
      * intros e He. destruct (Hraise e He) as (-> & Hin & Hs & Heq & Hok).
        split; [reflexivity|]. split; [by right|]. split; [exact Hs|]. split; [exact Heq|exact Hok].
    + apply IH in Hrun as [Hframe Hraise]. unfold delitem in *. split.
      * intros k Hk. rewrite Hframe by (intros Hin; apply Hk; by right).
        apply lookup_delete_ne. intros <-. apply Hk. by left.
      * intros e He. destruct (Hraise e He) as (-> & Hin & Hs & Heq & Hok).
        apply lookup_delete_is_Some in Hs as [Hne Hs].
        split; [reflexivity|]. split; [by right|]. split; [exact Hs|]. split; [|exact Hok].
        rewrite Heq. by apply lookup_delete_ne.
    + injection Hrun as <- <- <-. split; [done|].
      intros e [= <-]. split; [reflexivity|]. split; [rewrite Hka; by left|].
      split; [exact Hsome|]. split; [reflexivity|exact Hbad].
Qed.

(** X4.  [extract_connection_options] raises nothing but [ValueError], and
    only when the [Connection] header lists [Keep-Alive] and the
    [Keep-Alive] header is there with parameters that are not of the form
    [name=value].  The failed call leaves that header and every header that
    the [Connection] header does not name as they were (so [Connection]
    itself stays, unless it names itself). *)
Theorem extract_connection_options_failure (self self' : HttpHeaders) (e : exn) :
  extract_connection_options self = (Raised e, self') ->
  e = ValueError
  /\ "keep-alive" ∈ lower <$> getheaders "Connection" self
  /\ is_Some (self !! "keep-alive") /\ keep_alive_ok self = false
  /\ self' !! "keep-alive" = self !! "keep-alive"
  /\ (forall k, k ∉ lower <$> getheaders "Connection" self -> self' !! k = self !! k).
Proof.
  unfold extract_connection_options.
  destruct (for_each _ _ _) as [o [options self1]] eqn:Hloop.
  apply extract_loop_any in Hloop as [Hframe Hraise].
  destruct o as [[]|e1].
  { case_bool_decide; discriminate. }
  intros [= -> ->]. destruct (Hraise e eq_refl) as (-> & Hin & Hsome & Heq & Hbad).
  split; [reflexivity|]. split; [exact Hin|]. split; [exact Hsome|].
  split; [|split; [exact Heq|exact Hframe]].
  assert (keep_alive_ok self = keep_alive_ok self') as ->; [|done].
  unfold keep_alive_ok, keep_alive_parameters, getheaders. by rewrite lower_keep_alive, Heq.
Qed.

(** X4 on a [Keep-Alive] header that gives a number only. *)
Lemma extract_connection_options_failure_witness :
  let self : HttpHeaders :=
    {[ "connection" := "x-trace, keep-alive"; "keep-alive" := "300"; "x-trace" := "1" ]} in
  extract_connection_options self
  = (Raised ValueError, {[ "connection" := "x-trace, keep-alive"; "keep-alive" := "300" ]})
  /\ "keep-alive" ∈ lower <$> getheaders "Connection" self
  /\ is_Some (self !! "keep-alive") /\ keep_alive_ok self = false.
Proof.
  cbv zeta. split; [vm_compute; reflexivity|].
  destruct (extract_connection_options_failure
              {[ "connection" := "x-trace, keep-alive"; "keep-alive" := "300"; "x-trace" := "1" ]}
              {[ "connection" := "x-trace, keep-alive"; "keep-alive" := "300" ]} ValueError)
    as (_ & Hin & Hsome & Hbad & _); [vm_compute; reflexivity|].
  split; [exact Hin|]. split; [exact Hsome|exact Hbad].
Defined.

(** *** [is_false] *)

(** X5.  [is_false] does not look at letter case: two values that are equal
    up to the case of their ASCII letters get the same answer. *)
Theorem is_false_ignores_case (value value' : string) :
  lower value = lower value' -> is_false value = is_false value'.
Proof.
  intros Heq. unfold is_false. by rewrite !lower_strip, Heq.
Qed.

Lemma is_false_ignores_case_witness :
  lower " OFF " = lower " off " /\ is_false " OFF " = is_false " off " /\ is_false " off " = true.
Proof.
  split; [reflexivity|]. split; [|reflexivity].
  apply (is_false_ignores_case " OFF " " off "). reflexivity.
Defined.

End HttpFacts.

(** ** Inspection of the get-index request *)
Module IndicesFacts.

Import IndicesApis.
Local Open Scope py_scope.

Lemma recorded_empty (permission index : string) : ~ recorded ∅ permission index.
Proof. intros (indices & H & _). by rewrite lookup_empty in H. Qed.

Lemma recorded_non_empty (missing : gmap string (list string)) (permission index : string) :
  recorded missing permission index -> missing <> ∅.
Proof. intros (indices & H & _) ->. by rewrite lookup_empty in H. Qed.

Lemma recorded_setdefault_append (missing : gmap string (list string)) (p i p' i' : string) :
  recorded (setdefault_append p i missing) p' i' <->
  recorded missing p' i' \/ (p' = p /\ i' = i).
Proof.
  unfold recorded, setdefault_append. split.
  - intros (indices & Hlook & Hin).
    apply lookup_insert_Some in Hlook as [[<- <-]|[Hne Hlook]].
    + apply elem_of_app in Hin as [Hin|Hin%list_elem_of_singleton]; [|by right].
      left. destruct (missing !! p) as [old|]; [by exists old|].
      by apply elem_of_nil in Hin.
    + left. by exists indices.
  - intros [(indices & Hlook & Hin)|[-> ->]].
    + destruct (decide (p = p')) as [->|Hne].
      * rewrite lookup_insert_eq. eexists. split; [reflexivity|].
        rewrite Hlook. apply elem_of_app. by left.
      * rewrite lookup_insert_ne by done. by exists indices.
    + rewrite lookup_insert_eq. eexists. split; [reflexivity|].
      apply elem_of_app. right. by apply list_elem_of_singleton.
Qed.

Section InspectFacts.

Context {FilterString : Type}.
Variable from_string : string -> FilterString.
Variable filter_bool : FilterString -> bool.
Variable filter_str : FilterString -> string.
Variable iter_patterns : FilterString -> list string.
Variable dict_order : forall A : Type, list (string * A) -> list (string * A).
Hypothesis dict_order_perm : forall A (items : list (string * A)), dict_order A items ≡ₚ items.

Implicit Types (client : @Client FilterString) (patterns keywords : list string).

(** [iteritems] yields the items of the dictionary, each once. *)
Lemma elem_of_iteritems {A} (d : gmap string A) (k : string) (v : A) :
  (k, v) ∈ iteritems dict_order d <-> d !! k = Some v.
Proof.
  unfold iteritems. rewrite (dict_order_perm A (map_to_list d)).
  apply elem_of_map_to_list.
Qed.

Lemma length_iteritems {A} (d : gmap string A) : length (iteritems dict_order d) = size d.
Proof.
  unfold iteritems. rewrite (dict_order_perm A (map_to_list d)). apply length_map_to_list.
Qed.

(** The inner loop, one keyword against every pattern. *)
Lemma check_setting_recorded client setting permission patterns :
  forall permitted missing,
    let result := check_setting client setting permission patterns (permitted, missing) in
    forall p i, recorded result.2 p i <->
                recorded missing p i
                \/ (p = permission /\ i ∈ patterns /\ can client permission i = false).
Proof.
  induction patterns as [|index patterns IH]; intros permitted missing; cbn zeta.
  - intros p i. split; [by left|]. intros [H|(_ & Hin & _)]; [done|].
    by apply elem_of_nil in Hin.
  - intros p i. unfold check_setting. cbn [fold_left].
    destruct (can client permission index) eqn:Hcan.
    + fold (check_setting client setting permission patterns (permitted ++ [setting], missing)).
      rewrite IH. setoid_rewrite elem_of_cons. split.
      * intros [H|(-> & Hin & Hc)]; [by left|]. right. split; [done|]. split; [by right|done].
      * intros [H|(-> & [->|Hin] & Hc)]; [by left|congruence|]. right. done.
    + fold (check_setting client setting permission patterns
              (permitted, setdefault_append permission index missing)).
      rewrite IH, recorded_setdefault_append. setoid_rewrite elem_of_cons. split.
      * intros [[H|[-> ->]]|(-> & Hin & Hc)].
        -- by left.
        -- right. split; [done|]. split; [by left|done].
        -- right. split; [done|]. split; [by right|done].
      * intros [H|(-> & [->|Hin] & Hc)].
        -- left. by left.
        -- left. right. done.
        -- right. done.
Qed.

(** When every pattern passes, the keyword is recorded once per pattern and
    nothing is added to [missing]. *)
Lemma check_setting_all_pass client setting permission patterns :
  forall permitted missing,
    (forall i, i ∈ patterns -> can client permission i = true) ->
    check_setting client setting permission patterns (permitted, missing)
    = (permitted ++ replicate (length patterns) setting, missing).
Proof.
  induction patterns as [|index patterns IH]; intros permitted missing Hall.
  - unfold check_setting. simpl. by rewrite app_nil_r.
  - unfold check_setting. cbn [fold_left]. rewrite Hall by (by left).
    fold (check_setting client setting permission patterns (permitted ++ [setting], missing)).
    rewrite IH by (intros i Hin; apply Hall; by right).
    by rewrite <- app_assoc.
Qed.

Lemma check_from_recorded client keywords patterns (items : list (string * string)) :
  forall acc,
    forall p i, recorded (check_from client keywords patterns items acc).2 p i <->
                recorded acc.2 p i
                \/ exists setting, (setting, p) ∈ items /\ selected keywords setting = true
                                   /\ i ∈ patterns /\ can client p i = false.
Proof.
  induction items as [|[setting permission] items IH]; intros acc p i.
  - simpl. split; [by left|]. intros [H|(s & Hin & _)]; [done|]. by apply elem_of_nil in Hin.
  - unfold check_from. cbn [fold_left]. fold (selected keywords setting).
    destruct (selected keywords setting) eqn:Hsel.
    + fold (check_from client keywords patterns items
              (check_setting client setting permission patterns acc)).
      rewrite IH. destruct acc as [permitted missing].
      rewrite check_setting_recorded. setoid_rewrite elem_of_cons. cbn [snd]. split.
      * intros [[H|(-> & Hin & Hc)]|(s & Hin & Hs & Hi & Hc)].
        -- by left.
        -- right. exists setting. split; [by left|done].
        -- right. exists s. split; [by right|done].
      * intros [H|(s & [[= -> ->]|Hin] & Hs & Hi & Hc)].
        -- left. by left.
        -- left. right. done.
        -- right. exists s. done.
    + fold (check_from client keywords patterns items acc).
      rewrite IH. setoid_rewrite elem_of_cons. split.
      * intros [H|(s & Hin & Hs & Hi & Hc)]; [by left|].
        right. exists s. split; [by right|done].
      * intros [H|(s & [[= -> ->]|Hin] & Hs & Hi & Hc)]; [by left|congruence|].
        right. exists s. done.
Qed.

Lemma check_from_all_pass client patterns (items : list (string * string)) :
  forall permitted missing,
    (forall setting p i, (setting, p) ∈ items -> i ∈ patterns -> can client p i = true) ->
    exists permitted',
      check_from client [] patterns items (permitted, missing) = (permitted', missing)
      /\ length permitted' = (length permitted + length items * length patterns)%nat.
Proof.
  induction items as [|[setting permission] items IH]; intros permitted missing Hall.
  - exists permitted. split; [reflexivity|]. simpl. lia.
  - unfold check_from. cbn [fold_left is_empty orb].
    rewrite check_setting_all_pass by (intros i Hin; eapply Hall; [by left|done]).
    destruct (IH (permitted ++ replicate (length patterns) setting) missing)
      as (permitted' & Heq & Hlen).
    { intros s p i Hin Hi. eapply Hall; [by right|done]. }
    exists permitted'. split; [exact Heq|].
    rewrite Hlen, length_app, length_replicate. simpl. lia.
Qed.


Local Abbreviation inspect_ := (inspect from_string filter_bool filter_str iter_patterns dict_order).
Local Abbreviation narrow_ := (narrow filter_bool filter_str).
Local Abbreviation iteritems_ := (iteritems dict_order).

(** What the loops leave in [missing_permissions]. *)
Lemma check_settings_recorded client keywords patterns (p i : string) :
  recorded (check_settings client keywords patterns (iteritems_ index_settings)).2 p i
  <-> fails client keywords patterns p i.
Proof.
  unfold check_settings, fails. rewrite check_from_recorded. cbn [snd].
  setoid_rewrite elem_of_iteritems. split; [|by right].
  intros [H|H]; [by apply recorded_empty in H|done].
Qed.

(** [inspect] up to the permission matrix. *)
Lemma inspect_matrix client (self : GetIndexApiRequest) (index_filter : FilterString) :
  create_filter_string client "api/indices/get/*" (from_string (indices self)) = Some index_filter ->
  (forall kw, kw ∈ requested_keywords self -> is_Some (index_settings !! kw)) ->
  let result := check_settings client (requested_keywords self) (iter_patterns index_filter)
                  (iteritems_ index_settings) in
  inspect_ client self =
  if bool_decide (result.2 <> ∅) then
    (Raised (PermissionError (missing_message (iteritems_ result.2))), narrow_ index_filter self)
  else if is_empty (requested_keywords self)
          && bool_decide (length result.1 < size index_settings)%nat then
    (Returned tt,
     set_path (join "/" [rstrip_char "/" (path (narrow_ index_filter self)); join "," result.1])
              (narrow_ index_filter self))
  else (Returned tt, narrow_ index_filter self).
Proof.
  intros Hfilter Hknown result. unfold inspect, bind, get. rewrite Hfilter.
  unfold modify at 1.
  assert (List.find (fun kw => bool_decide (index_settings !! kw = None)) (requested_keywords self)
          = None) as ->.
  { destruct (List.find _ _) as [kw|] eqn:Hfind; [|reflexivity].
    apply find_some in Hfind as [Hin Hnone]. apply bool_decide_eq_true in Hnone.
    apply list_elem_of_In, Hknown in Hin. rewrite Hnone in Hin. by destruct Hin. }
  subst result. destruct (check_settings _ _ _ _) as [permitted missing]. cbn [fst snd].
  case_bool_decide; [reflexivity|].
  destruct (is_empty _ && _); reflexivity.
Qed.

(** The list that the inner loop leaves for its permission: what was there,
    followed by the patterns that fail, in the order of the patterns; no
    other entry is touched, and no entry is made when every pattern passes. *)
Lemma check_setting_lookup client setting permission patterns :
  forall permitted missing p,
    (check_setting client setting permission patterns (permitted, missing)).2 !! p
    = if decide (p = permission) then
        match filter (fun i => can client permission i = false) patterns with
        | [] => missing !! p
        | failing => Some (default [] (missing !! p) ++ failing)
        end
      else missing !! p.
Proof.
  induction patterns as [|index patterns IH]; intros permitted missing p.
  - cbn. by destruct (decide (p = permission)).
  - unfold check_setting. cbn [fold_left].
    destruct (can client permission index) eqn:Hcan.
    + fold (check_setting client setting permission patterns (permitted ++ [setting], missing)).
      rewrite IH. rewrite filter_cons_False by congruence. reflexivity.
    + fold (check_setting client setting permission patterns
              (permitted, setdefault_append permission index missing)).
      rewrite IH. rewrite filter_cons_True by done.
      destruct (decide (p = permission)) as [->|Hne].
      * unfold setdefault_append. rewrite lookup_insert_eq. cbn [default].
        destruct (filter _ patterns) as [|j failing]; [reflexivity|].
        unfold id. by rewrite <- app_assoc.
      * unfold setdefault_append. by rewrite lookup_insert_ne.
Qed.

(** When no two keywords share a permission and the permissions have no
    entry yet, the outer loop leaves for a permission the patterns on which
    it is not held, in the order of the patterns, and no empty entry. *)
Lemma check_from_lookup client keywords patterns (items : list (string * string)) :
  NoDup items.*2 ->
  forall acc,
    (forall item, item ∈ items -> acc.2 !! item.2 = None) ->
    forall p indices,
      (check_from client keywords patterns items acc).2 !! p = Some indices ->
      acc.2 !! p = Some indices
      \/ (indices <> [] /\ indices = filter (fun i => can client p i = false) patterns).
Proof.
  induction items as [|[setting permission] items IH]; intros Hnodup acc Hfresh p indices.
  - cbn. by left.
  - rewrite fmap_cons in Hnodup. apply NoDup_cons in Hnodup as [Hhead Hnodup].
    unfold check_from. cbn [fold_left]. fold (selected keywords setting).
    destruct (selected keywords setting).
    + fold (check_from client keywords patterns items
              (check_setting client setting permission patterns acc)).
      destruct acc as [permitted missing]. cbn [snd] in Hfresh.
      intros Hlook. apply IH in Hlook as [Hlook|Hlook]; [|by right|done|].
      * rewrite check_setting_lookup in Hlook.
        destruct (decide (p = permission)) as [->|Hne]; [|by left].
        assert (missing !! permission = None) as Hnone.
        { apply (Hfresh (setting, permission)). by left. }
        rewrite Hnone in Hlook. cbn [default app] in Hlook.
        destruct (filter _ patterns) as [|j failing] eqn:Hfilter; [discriminate|].
        injection Hlook as <-. right. done.
      * intros item Hin. rewrite check_setting_lookup.
        rewrite decide_False; [apply Hfresh; by right|].
        intros Heq. apply Hhead. rewrite <- Heq. apply list_elem_of_fmap. by exists item.
    + fold (check_from client keywords patterns items acc).
      intros Hlook. apply IH in Hlook as [Hlook|Hlook]; [by left|by right|done|].
      intros item Hin. apply Hfresh. by right.
Qed.

(** No two keywords of [index_settings] share a permission. *)
Lemma index_settings_permissions : NoDup (iteritems_ index_settings).*2.
Proof.
  unfold iteritems. rewrite (dict_order_perm _ (map_to_list index_settings)).
  apply (bool_decide_unpack (NoDup (map_to_list index_settings).*2)). vm_compute. exact I.
Qed.

(** What the loops leave in [missing_permissions], entry by entry. *)
Lemma check_settings_lookup client keywords patterns (p : string) (indices : list string) :
  (check_settings client keywords patterns (iteritems_ index_settings)).2 !! p = Some indices ->
  indices <> [] /\ indices = filter (fun i => can client p i = false) patterns.
Proof.
  unfold check_settings. intros Hlook.
  apply check_from_lookup in Hlook as [Hlook|Hlook]; [|done|apply index_settings_permissions|].
  - cbn [snd] in Hlook. by rewrite lookup_empty in Hlook.
  - intros item _. apply lookup_empty.
Qed.

(** The general half of C6: one failing pair is enough for the request to
    be denied, whatever else passed; the message lists, after its opening
    words, every entry as [permission (index, index, ...)], and the entries
    are the failing pairs, every permission once. *)
Lemma inspect_denies_on_missing client (self : GetIndexApiRequest) (index_filter : FilterString)
  (permission index : string) :
  create_filter_string client "api/indices/get/*" (from_string (indices self)) = Some index_filter ->
  (forall kw, kw ∈ requested_keywords self -> is_Some (index_settings !! kw)) ->
  fails client (requested_keywords self) (iter_patterns index_filter) permission index ->
  exists entries : list (string * list string),
    inspect_ client self
    = (Raised (PermissionError
         ("You are missing the following permissions: "
          +:+ join ", " ((fun entry : string * list string =>
                            entry.1 +:+ " (" +:+ join ", " entry.2 +:+ ")") <$> entries))),
       narrow_ index_filter self)
    /\ NoDup entries.*1
    /\ (forall p i, (exists indices, (p, indices) ∈ entries /\ i ∈ indices)
                    <-> fails client (requested_keywords self) (iter_patterns index_filter) p i)
    /\ forall p indices,
         (p, indices) ∈ entries ->
         indices <> []
         /\ indices = filter (fun i => can client p i = false) (iter_patterns index_filter).
Proof.
  intros Hfilter Hknown Hfails.
  rewrite (inspect_matrix client self index_filter Hfilter Hknown). cbn zeta.
  set (missing := (check_settings client (requested_keywords self) (iter_patterns index_filter)
                     (iteritems_ index_settings)).2).
  assert (missing <> ∅) as Hne.
  { apply (recorded_non_empty _ permission index). by apply check_settings_recorded. }
  rewrite bool_decide_eq_true_2 by done.
  exists (iteritems_ missing). split; [reflexivity|]. split; [|split].
  - unfold iteritems. rewrite (dict_order_perm _ (map_to_list missing)).
    apply NoDup_fst_map_to_list.
  - intros p i. setoid_rewrite elem_of_iteritems. apply check_settings_recorded.
  - intros p indices Hin%elem_of_iteritems.
    exact (check_settings_lookup client (requested_keywords self) (iter_patterns index_filter)
             p indices Hin).
Qed.

(** C10.  Without requested keywords and with at least one pattern in the
    narrowed filter, a run of [inspect] that returns found nothing missing,
    recorded at least as many permitted keywords as there are known ones
    (four), and left the path as the narrowing step wrote it: no keyword
    names were appended. *)
Theorem inspect_success_appends_no_keywords client (self self' : GetIndexApiRequest)
  (index_filter : FilterString) :
  create_filter_string client "api/indices/get/*" (from_string (indices self)) = Some index_filter ->
  requested_keywords self = [] ->
  iter_patterns index_filter <> [] ->
  inspect_ client self = (Returned tt, self') ->
  let result := check_settings client [] (iter_patterns index_filter) (iteritems_ index_settings) in
  result.2 = ∅
  /\ size index_settings = 4%nat
  /\ (size index_settings <= length result.1)%nat
  /\ self' = narrow_ index_filter self.
Proof.
  intros Hfilter Hkw Hpat Hrun result.
  rewrite (inspect_matrix client self index_filter Hfilter) in Hrun
    by (rewrite Hkw; intros kw Hin; by apply elem_of_nil in Hin).
  cbn zeta in Hrun. rewrite Hkw in Hrun. fold result in Hrun.
  case_bool_decide as Hmissing; [discriminate|].
  assert (forall setting p i, (setting, p) ∈ iteritems_ index_settings ->
            i ∈ iter_patterns index_filter -> can client p i = true) as Hall.
  { intros setting p i Hin Hi. destruct (can client p i) eqn:Hcan; [reflexivity|].
    exfalso. assert (recorded result.2 p i) as Hrec.
    { apply check_settings_recorded. exists setting.
      split; [apply elem_of_iteritems; exact Hin|].
      split; [reflexivity|]. split; [exact Hi|exact Hcan]. }
    rewrite Hmissing in Hrec. exact (recorded_empty p i Hrec). }
  destruct (check_from_all_pass client (iter_patterns index_filter)
              (iteritems_ index_settings) [] ∅ Hall) as (permitted & Heq & Hlen).
  assert (result = (permitted, ∅)) as Hres by exact Heq.
  assert (size index_settings = 4%nat) as Hsize by (vm_compute; reflexivity).
  assert (size index_settings <= length result.1)%nat as Hle.
  { rewrite Hres. cbn [fst]. rewrite Hlen, length_iteritems, Hsize.
    assert (1 <= length (iter_patterns index_filter))%nat as Hone.
    { clear -Hpat. destruct (iter_patterns index_filter) as [|i l]; [by destruct Hpat|].
      cbn [length]. lia. }
    clear -Hone. nia. }
  split; [exact Hmissing|]. split; [exact Hsize|]. split; [exact Hle|].
  rewrite bool_decide_eq_false_2 in Hrun by (clear -Hle; lia).
  cbn [is_empty andb] in Hrun. injection Hrun as <-. reflexivity.
Qed.


(** *** Runs that return *)

Lemma check_setting_no_patterns client setting permission acc :
  check_setting client setting permission [] acc = acc.
Proof. reflexivity. Qed.

Lemma check_from_no_patterns client keywords (items : list (string * string)) :
  forall acc, check_from client keywords [] items acc = acc.
Proof.
  induction items as [|[setting permission] items IH]; intros acc; [reflexivity|].
  unfold check_from. cbn [fold_left]. rewrite check_setting_no_patterns.
  destruct (is_empty keywords || bool_decide (setting ∈ keywords)); apply IH.
Qed.

Lemma inspect_without_filter client (self : GetIndexApiRequest) :
  create_filter_string client "api/indices/get/*" (from_string (indices self)) = None ->
  exists e, inspect_ client self = (Raised e, self).
Proof. intros Hfilter. unfold inspect, bind, get. rewrite Hfilter. by eexists. Qed.

Lemma inspect_unknown_keyword client (self : GetIndexApiRequest) (index_filter : FilterString)
  (kw : string) :
  create_filter_string client "api/indices/get/*" (from_string (indices self)) = Some index_filter ->
  List.find (fun kw => bool_decide (index_settings !! kw = None)) (requested_keywords self)
  = Some kw ->
  inspect_ client self
  = (Raised (PermissionError ("Unknown index setting: " +:+ kw)), narrow_ index_filter self).
Proof.
  intros Hfilter Hfind. unfold inspect, bind, get. rewrite Hfilter.
  unfold modify at 1. by rewrite Hfind.
Qed.

(** X6.  A run of [inspect] that returns has seen a filter that is not
    [None], only known keywords, and the permission of every selected
    keyword (each requested one, or all four) granted on every pattern of
    the narrowed filter; with requested keywords the path is left as the
    narrowing step wrote it. *)
Theorem inspect_returns_only_when_permitted client (self self' : GetIndexApiRequest) :
  inspect_ client self = (Returned tt, self') ->
  exists index_filter : FilterString,
    create_filter_string client "api/indices/get/*" (from_string (indices self))
    = Some index_filter
    /\ (forall kw, kw ∈ requested_keywords self -> is_Some (index_settings !! kw))
    /\ (forall setting permission index,
          index_settings !! setting = Some permission ->
          selected (requested_keywords self) setting = true ->
          index ∈ iter_patterns index_filter ->
          can client permission index = true)
    /\ (requested_keywords self <> [] -> self' = narrow_ index_filter self).
Proof.
  intros Hrun.
  destruct (create_filter_string client "api/indices/get/*" (from_string (indices self)))
    as [index_filter|] eqn:Hfilter.
  2:{ destruct (inspect_without_filter client self Hfilter) as [e He]. congruence. }
  exists index_filter. split; [reflexivity|].
  destruct (List.find (fun kw => bool_decide (index_settings !! kw = None))
              (requested_keywords self)) as [kw|] eqn:Hfind.
  { rewrite (inspect_unknown_keyword client self index_filter kw Hfilter Hfind) in Hrun.
    discriminate. }
  assert (forall kw, kw ∈ requested_keywords self -> is_Some (index_settings !! kw)) as Hknown.
  { intros kw Hin. apply list_elem_of_In in Hin.
    pose proof (find_none _ _ Hfind kw Hin) as Hkw. cbn beta in Hkw.
    apply bool_decide_eq_false in Hkw. by apply not_eq_None_Some. }
  split; [exact Hknown|].
  rewrite (inspect_matrix client self index_filter Hfilter Hknown) in Hrun. cbn zeta in Hrun.
  case_bool_decide as Hmissing; [discriminate|]. split.
  - intros setting permission index Hset Hsel Hin.
    destruct (can client permission index) eqn:Hcan; [reflexivity|]. exfalso.
    assert (recorded (check_settings client (requested_keywords self)
                        (iter_patterns index_filter) (iteritems_ index_settings)).2
                     permission index) as Hrec.
    { apply check_settings_recorded. exists setting.
      split; [exact Hset|]. split; [exact Hsel|]. split; [exact Hin|exact Hcan]. }
    rewrite Hmissing in Hrec. exact (recorded_empty permission index Hrec).
  - intros Hkw. destruct (requested_keywords self) as [|kw kws];
      [exfalso; apply Hkw; reflexivity|].
    cbn [is_empty andb] in Hrun. injection Hrun as <-. reflexivity.
Qed.

(** X7.  When the narrowed filter yields no pattern and no keywords were
    requested, [inspect] asks for no permission at all: it returns for every
    client, and the path ends up as the narrowed path, stripped of trailing
    slashes, with one slash appended. *)
Theorem inspect_without_patterns_checks_nothing client (self : GetIndexApiRequest)
  (index_filter : FilterString) :
  create_filter_string client "api/indices/get/*" (from_string (indices self)) = Some index_filter ->
  requested_keywords self = [] ->
  iter_patterns index_filter = [] ->
  inspect_ client self
  = (Returned tt,
     set_path (rstrip_char "/" (path (narrow_ index_filter self)) +:+ "/")
              (narrow_ index_filter self)).
Proof.
  intros Hfilter Hkw Hpat.
  rewrite (inspect_matrix client self index_filter Hfilter)
    by (rewrite Hkw; intros kw Hin; by apply elem_of_nil in Hin).
  cbn zeta. rewrite Hkw, Hpat. unfold check_settings. rewrite check_from_no_patterns.
  cbn [fst snd is_empty length]. rewrite bool_decide_eq_false_2 by (intros Hn; by apply Hn).
  assert (size index_settings = 4%nat) as -> by (vm_compute; reflexivity).
  rewrite bool_decide_eq_true_2 by lia. cbn [andb]. reflexivity.
Qed.

End InspectFacts.


Lemma written_order_perm : forall A (items : list (string * A)), written_order A items ≡ₚ items.
Proof. intros A items. reflexivity. Qed.

(** Whatever the order of the keywords, the loops leave one entry. *)
Lemma sample_missing (items : list (string * string)) :
  items ≡ₚ map_to_list index_settings ->
  map_to_list (check_settings sample_client [] ["idx-1"; "idx-2"] items).2
  = [("api/indices/get/settings", ["idx-2"])].
Proof.
  intros Hperm. symmetry in Hperm. apply permutations_Permutation in Hperm.
  let all := eval vm_compute in (permutations (map_to_list index_settings)) in
  assert (permutations (map_to_list index_settings) = all) as Hall
    by (vm_compute; reflexivity);
  rewrite Hall in Hperm; clear Hall.
  repeat (apply elem_of_cons in Hperm as [->|Hperm]; [vm_compute; reflexivity|]).
  by apply elem_of_nil in Hperm.
Qed.


(** The sample request runs into the one missing permission, in whatever
    order the dictionaries iterate. *)
Lemma sample_request_denied
  (dict_order : forall A : Type, list (string * A) -> list (string * A)) :
  (forall A (items : list (string * A)), dict_order A items ≡ₚ items) ->
  inspect list_from_string nonempty (join ",") list_patterns dict_order
    sample_client sample_request
  = (Raised (PermissionError
       "You are missing the following permissions: api/indices/get/settings (idx-2)"),
     sample_request).
Proof.
  intros Hperm.
  rewrite (inspect_matrix list_from_string nonempty (join ",") list_patterns dict_order
             sample_client sample_request ["idx-1"; "idx-2"]).
  - cbn zeta.
    change (requested_keywords sample_request) with (@nil string).
    change (list_patterns ["idx-1"; "idx-2"]) with ["idx-1"; "idx-2"].
    set (missing := (check_settings sample_client [] ["idx-1"; "idx-2"]
                       (iteritems dict_order index_settings)).2).
    assert (map_to_list missing = [("api/indices/get/settings", ["idx-2"])]) as Hlist.
    { apply sample_missing. apply Hperm. }
    assert (missing <> ∅) as Hne.
    { intros Hempty. rewrite Hempty, map_to_list_empty in Hlist. discriminate. }
    rewrite bool_decide_eq_true_2 by exact Hne.
    unfold iteritems at 1. rewrite Hlist.
    pose proof (Hperm _ [("api/indices/get/settings", ["idx-2"])]) as Hone.
    apply Permutation_singleton_r in Hone. rewrite Hone. reflexivity.
  - vm_compute. reflexivity.
  - intros kw Hin. change (requested_keywords sample_request) with (@nil string) in Hin.
    by apply elem_of_nil in Hin.
Qed.

(** C6.  Once the permission matrix is evaluated, one failing pair of a
    permission and an index pattern is enough for [inspect] to raise
    [PermissionError], whatever else passed; its message is the text
    [You are missing the following permissions: ] followed by the entries,
    each written [permission (index, index, ...)] and separated by [", "];
    the entries are the failing pairs, each permission once with the index
    patterns on which it is not held, in the order of the patterns and never
    an empty list, and the path is left as the narrowing step wrote it.  For
    the client that lacks
    the settings permission on [idx-2] only and the request for [idx-1] and
    [idx-2] without keywords, the message names that permission and
    [idx-2]. *)
Theorem inspect_all_or_nothing :
  (forall (FilterString : Type) (from_string : string -> FilterString)
          (filter_bool : FilterString -> bool) (filter_str : FilterString -> string)
          (iter_patterns : FilterString -> list string)
          (dict_order : forall A : Type, list (string * A) -> list (string * A))
          (client : @Client FilterString) (self : GetIndexApiRequest)
          (index_filter : FilterString) (permission index : string),
      (forall A (items : list (string * A)), dict_order A items ≡ₚ items) ->
      create_filter_string client "api/indices/get/*" (from_string (indices self))
      = Some index_filter ->
      (forall kw, kw ∈ requested_keywords self -> is_Some (index_settings !! kw)) ->
      fails client (requested_keywords self) (iter_patterns index_filter) permission index ->
      exists entries : list (string * list string),
        inspect from_string filter_bool filter_str iter_patterns dict_order client self
        = (Raised (PermissionError
             ("You are missing the following permissions: "
              +:+ join ", " ((fun entry : string * list string =>
                                entry.1 +:+ " (" +:+ join ", " entry.2 +:+ ")") <$> entries))),
           narrow filter_bool filter_str index_filter self)
        /\ NoDup entries.*1
        /\ (forall p i, (exists indices, (p, indices) ∈ entries /\ i ∈ indices)
                        <-> fails client (requested_keywords self) (iter_patterns index_filter) p i)
        /\ forall p indices,
             (p, indices) ∈ entries ->
             indices <> []
             /\ indices = filter (fun i => can client p i = false) (iter_patterns index_filter))
  /\ (forall dict_order : forall A : Type, list (string * A) -> list (string * A),
        (forall A (items : list (string * A)), dict_order A items ≡ₚ items) ->
        inspect list_from_string nonempty (join ",") list_patterns dict_order
          sample_client sample_request
        = (Raised (PermissionError
             "You are missing the following permissions: api/indices/get/settings (idx-2)"),
           sample_request)).
Proof.
  split.
  - intros FilterString from_string filter_bool filter_str iter_patterns dict_order
      client self index_filter permission index Hperm Hfilter Hknown Hfails.
    by apply (inspect_denies_on_missing from_string filter_bool filter_str iter_patterns
                dict_order Hperm client self index_filter permission index).
  - apply sample_request_denied.
Qed.

(** C6 with dictionaries that iterate in the order they were written. *)
Lemma inspect_all_or_nothing_witness :
  (exists entries : list (string * list string),
     inspect list_from_string nonempty (join ",") list_patterns written_order
       sample_client sample_request
     = (Raised (PermissionError
          ("You are missing the following permissions: "
           +:+ join ", " ((fun entry : string * list string =>
                             entry.1 +:+ " (" +:+ join ", " entry.2 +:+ ")") <$> entries))),
        narrow nonempty (join ",") ["idx-1"; "idx-2"] sample_request)
     /\ NoDup entries.*1
     /\ (forall p i, (exists indices, (p, indices) ∈ entries /\ i ∈ indices)
                     <-> fails sample_client (requested_keywords sample_request)
                           (list_patterns ["idx-1"; "idx-2"]) p i)
     /\ forall p indices,
          (p, indices) ∈ entries ->
          indices <> []
          /\ indices = filter (fun i => can sample_client p i = false)
                         (list_patterns ["idx-1"; "idx-2"]))
  /\ inspect list_from_string nonempty (join ",") list_patterns written_order
       sample_client sample_request
     = (Raised (PermissionError
          "You are missing the following permissions: api/indices/get/settings (idx-2)"),
        sample_request).
Proof.
  destruct inspect_all_or_nothing as [Hgeneral Hsample]. split.
  - apply (Hgeneral (list string) list_from_string nonempty (join ",") list_patterns
             written_order sample_client sample_request ["idx-1"; "idx-2"]
             "api/indices/get/settings" "idx-2").
    + apply written_order_perm.
    + vm_compute. reflexivity.
    + intros kw Hin. change (requested_keywords sample_request) with (@nil string) in Hin.
      by apply elem_of_nil in Hin.
    + exists "_settings". split; [vm_compute; reflexivity|]. split; [reflexivity|].
      split; [|vm_compute; reflexivity]. apply list_elem_of_In. simpl. tauto.
  - apply Hsample. apply written_order_perm.
Defined.

Example full_client_passes :
  inspect list_from_string nonempty (join ",") list_patterns written_order
    full_client wide_request
  = (Returned tt, {| path := "/idx-1"; indices := "idx-1,idx-9"; keywords_match := None |}).
Proof. vm_compute. reflexivity. Qed.

(** C10 on the run of [full_client_passes]. *)
Lemma inspect_success_appends_no_keywords_witness :
  let result := check_settings full_client [] (list_patterns ["idx-1"])
                  (iteritems written_order index_settings) in
  result.2 = ∅
  /\ size index_settings = 4%nat
  /\ (size index_settings <= length result.1)%nat
  /\ {| path := "/idx-1"; indices := "idx-1,idx-9"; keywords_match := None |}
     = narrow nonempty (join ",") ["idx-1"] wide_request.
Proof.
  apply (inspect_success_appends_no_keywords list_from_string nonempty (join ",")
           list_patterns written_order written_order_perm full_client wide_request
           {| path := "/idx-1"; indices := "idx-1,idx-9"; keywords_match := None |}
           ["idx-1"]).
  - vm_compute. reflexivity.
  - vm_compute. reflexivity.
  - discriminate.
  - vm_compute. reflexivity.
Defined.


(** X6 on the run of [full_client_passes]. *)
Lemma inspect_returns_only_when_permitted_witness :
  exists index_filter : list string,
    create_filter_string full_client "api/indices/get/*" (list_from_string (indices wide_request))
    = Some index_filter
    /\ (forall kw, kw ∈ requested_keywords wide_request -> is_Some (index_settings !! kw))
    /\ (forall setting permission index,
          index_settings !! setting = Some permission ->
          selected (requested_keywords wide_request) setting = true ->
          index ∈ list_patterns index_filter ->
          can full_client permission index = true)
    /\ (requested_keywords wide_request <> [] ->
        {| path := "/idx-1"; indices := "idx-1,idx-9"; keywords_match := None |}
        = narrow nonempty (join ",") index_filter wide_request).
Proof.
  apply (inspect_returns_only_when_permitted list_from_string nonempty (join ",")
           list_patterns written_order written_order_perm full_client wide_request
           {| path := "/idx-1"; indices := "idx-1,idx-9"; keywords_match := None |}).
  vm_compute. reflexivity.
Defined.

(** A request with a keyword, for a client that holds everything. *)
Example full_client_keyword :
  inspect list_from_string nonempty (join ",") list_patterns written_order
    full_client keyword_request
  = (Returned tt,
     {| path := "/idx-1/_mappings"; indices := "idx-1,idx-9";
        keywords_match := Some "_mappings" |}).
Proof. vm_compute. reflexivity. Qed.

(** X7 on a client that holds nothing and gets the empty filter. *)
Lemma inspect_without_patterns_checks_nothing_witness :
  inspect list_from_string nonempty (join ",") list_patterns written_order
    empty_filter_client single_request
  = (Returned tt, {| path := "/idx-1/"; indices := "idx-1"; keywords_match := None |}).
Proof.
  apply (inspect_without_patterns_checks_nothing list_from_string nonempty (join ",")
           list_patterns written_order empty_filter_client single_request []);
    reflexivity.
Defined.

End IndicesFacts.

(** ** The LDAP backends *)
Module LdapFacts.

Import PyFacts Auth Ldap.
Local Open Scope py_scope.

Section BackendFacts.

Context {Time : Type}.
Variable time_add : Time -> Z -> Time.
Variable time_gt : Time -> Time -> bool.
Variable ldap_initialize : string -> outcome unit.
Variable server : list request -> request -> outcome (list entry).
Variable dict_order : list (string * string) -> list (string * string).

Local Abbreviation State_ := (@State Time).
Local Abbreviation call_ := (call ldap_initialize server).
Local Abbreviation bind_ := (Ldap.bind ldap_initialize server).
Local Abbreviation unbind_ := (unbind ldap_initialize server).
Local Abbreviation search_ := (search ldap_initialize server dict_order).
Local Abbreviation fetch_user_dn_ := (fetch_user_dn ldap_initialize server dict_order).
Local Abbreviation refresh_ := (refresh time_add ldap_initialize server dict_order).
Local Abbreviation get_group_memberships_ :=
  (get_group_memberships time_add time_gt ldap_initialize server dict_order).
Local Abbreviation search_string_ := (search_string dict_order).
Local Abbreviation user_search_ := (user_search dict_order).
Local Abbreviation group_search_ := (group_search dict_order).
Local Abbreviation refresh_requests_ := (refresh_requests dict_order).

(** The state after a request went out. *)
Lemma sent_state (r : request) (st : State_) :
  _local_connection st = true -> record_request r (set_connection true st) = record_request r st.
Proof. destruct st as [b c s g]. cbn. intros ->. reflexivity. Qed.

(** A call either fails to make the connection, and changes nothing, or
    sends the request and hands on what the directory answers. *)
Lemma call_cases (settings : Settings) (r : request) (st st' : State_) (o : outcome (list entry)) :
  call_ settings r st = (o, st') ->
  (st' = st /\ _local_connection st = false
   /\ exists e, ldap_initialize (ldap_url settings) = Raised e /\ o = Raised e)
  \/ (o = server (sent st) r /\ st' = record_request r (set_connection true st)).
Proof.
  unfold call, connection, Py.bind, get, lift, modify, ret.
  destruct (_local_connection st) eqn:Hconn.
  - intros [= <- <-]. right. split; [reflexivity|]. symmetry. by apply sent_state.
  - destruct (ldap_initialize (ldap_url settings)) as [[]|e] eqn:Hinit.
    + intros [= <- <-]. right. split; reflexivity.
    + intros [= <- <-]. left. split; [reflexivity|]. split; [reflexivity|]. by exists e.
Qed.

Lemma call_connected (settings : Settings) (r : request) (st : State_) :
  _local_connection st = true ->
  call_ settings r st = (server (sent st) r, record_request r st).
Proof.
  intros Hconn. unfold call, connection, Py.bind, get, lift, modify, ret. rewrite Hconn.
  reflexivity.
Qed.


(** [bind()] with the configured credentials: it returns after sending the
    bind request that [bind_requests] tells, or it raises and leaves the
    worker unbound. *)
Lemma bind_cases (settings : Settings) (st st' : State_) (o : outcome unit) :
  bind_ settings None None st = (o, st') ->
  (o = Returned tt
   /\ sent st' = sent st ++ bind_requests settings st
   /\ _local_bound st' = bound_after_bind settings st
   /\ _group_cache st' = _group_cache st)
  \/ ((exists e, o = Raised e)
      /\ _local_bound st = false /\ _local_bound st' = false
      /\ _group_cache st' = _group_cache st
      /\ exists new, sent st' = sent st ++ new /\ (new = [] \/ new = bind_requests settings st)).
Proof.
  unfold Ldap.bind, bound_after_bind, bind_requests. unfold Py.bind at 1. unfold get at 1.
  destruct (_local_bound st) eqn:Hbound.
  { intros [= <- <-]. left. rewrite app_nil_r. by rewrite Hbound. }
  destruct (ldap_bind_dn settings) as [dn|], (ldap_bind_pw settings) as [password|];
    try (intros [= <- <-]; left; rewrite app_nil_r, Hbound; done).
  unfold Py.bind. destruct (call_ settings (SimpleBind dn password) st) as [o1 s1] eqn:Hcall.
  apply call_cases in Hcall as [(-> & _ & e & _ & ->)|[-> ->]].
  - intros [= <- <-]. right. split; [by exists e|]. split; [done|]. split; [done|].
    split; [done|]. exists []. rewrite app_nil_r. split; [done|]. by left.
  - destruct (server (sent st) (SimpleBind dn password)) as [result|e].
    + intros [= <- <-]. left. cbn. done.
    + intros [= <- <-]. right. split; [by exists e|]. cbn. split; [done|]. split; [done|].
      split; [done|]. exists [SimpleBind dn password]. split; [done|]. by right.
Qed.

(** [fetch_user_dn] sends the user search, unless it cannot connect, and
    returns the DN of the one entry it gets. *)
Lemma fetch_user_dn_cases (settings : Settings) (user : option string) (st st' : State_)
  (o : outcome string) :
  fetch_user_dn_ settings user st = (o, st') ->
  (st' = st /\ exists e, o = Raised e)
  \/ (st' = record_request (user_search_ settings user) (set_connection true st)
      /\ ((exists e, o = Raised e)
          \/ exists dn attrs, o = Returned dn
               /\ server (sent st) (user_search_ settings user) = Returned [(dn, attrs)])).
Proof.
  unfold fetch_user_dn, search. fold (user_search_ settings user). unfold Py.bind.
  destruct (call_ settings (user_search_ settings user) st) as [o1 s1] eqn:Hcall.
  apply call_cases in Hcall as [(-> & _ & e & _ & ->)|[-> ->]].
  - intros [= <- <-]. left. split; [done|]. by exists e.
  - destruct (server (sent st) (user_search_ settings user)) as [result|e].
    + destruct result as [|[dn attrs] [|second result]].
      * intros [= <- <-]. right. split; [done|]. left. by exists LDAPError.
      * intros [= <- <-]. right. split; [done|]. right. by exists dn, attrs.
      * intros [= <- <-]. right. split; [done|]. left. by exists LDAPError.
    + intros [= <- <-]. right. split; [done|]. left. by exists e.
Qed.

(** [unbind]: an unbound worker only drops its connection; a bound one
    sends the unbind request first. *)
Lemma unbind_cases (settings : Settings) (st st' : State_) (o : outcome unit) :
  unbind_ settings st = (o, st') ->
  (_local_bound st = false /\ o = Returned tt /\ st' = set_connection false st)
  \/ (_local_bound st = true
      /\ ((st' = st /\ _local_connection st = false /\ exists e, o = Raised e)
          \/ (st' = record_request Unbind (set_connection true st) /\ exists e, o = Raised e)
          \/ (st' = set_connection false (set_bound false
                      (record_request Unbind (set_connection true st)))
              /\ o = Returned tt))).
Proof.
  unfold unbind. unfold Py.bind at 1. unfold get at 1.
  destruct (_local_bound st) eqn:Hbound.
  - unfold Py.bind. destruct (call_ settings Unbind st) as [o1 s1] eqn:Hcall.
    apply call_cases in Hcall as [(-> & Hconn & e & _ & ->)|[-> ->]].
    + intros [= <- <-]. right. split; [done|]. left. split; [done|]. split; [done|]. by exists e.
    + destruct (server (sent st) Unbind) as [result|e].
      * intros [= <- <-]. right. split; [done|]. right. right. done.
      * intros [= <- <-]. right. split; [done|]. right. left. split; [done|]. by exists e.
  - intros [= <- <-]. left. done.
Qed.


Lemma bind_requests_are_binds (settings : Settings) (st : State_) (r : request) :
  r ∈ bind_requests settings st -> exists dn password, r = SimpleBind dn password.
Proof.
  unfold bind_requests. destruct (_local_bound st); [by intros ?%elem_of_nil|].
  destruct (ldap_bind_dn settings) as [dn|], (ldap_bind_pw settings) as [password|];
    try by intros ?%elem_of_nil.
  intros ->%list_elem_of_singleton. by exists dn, password.
Qed.

(** A refresh that returns: the directory gave one entry for the user and
    answered the group search; the state afterwards is determined. *)
Lemma refresh_returns (settings : Settings) (client : Client) (now : Time) (st st1 : State_)
  (memberships : list string) :
  refresh_ settings client now st = (Returned memberships, st1) ->
  exists dn attrs results,
    server (sent st ++ bind_requests settings st) (user_search_ settings (name client))
    = Returned [(dn, attrs)]
    /\ server (sent st ++ bind_requests settings st ++ [user_search_ settings (name client)])
         (group_search_ settings dn)
       = Returned results
    /\ memberships = collect_memberships (ldap_group_name_attribute settings) results
    /\ st1 = {| _local_bound := false; _local_connection := false;
                sent := sent st ++ refresh_requests_ settings client dn st;
                _group_cache := <[name client :=
                                    (memberships, time_add now CACHE_INVALIDATION_INTERVAL)]>
                                  (_group_cache st) |}.
Proof.
  unfold refresh. intros Hrun.
  unfold Py.bind at 1 in Hrun.
  destruct (bind_ settings None None st) as [o1 s1] eqn:Hbind.
  apply bind_cases in Hbind as [(-> & Hsent1 & Hbound1 & Hcache1)|((e & ->) & _)];
    [|discriminate].
  unfold Py.bind at 1 in Hrun.
  destruct (fetch_user_dn_ settings (name client) s1) as [o2 s2] eqn:Hfetch.
  apply fetch_user_dn_cases in Hfetch as [(-> & e & ->)|(-> & [(e & ->)|(dn & attrs & -> & Huser)])];
    try discriminate.
  unfold search in Hrun. fold (group_search_ settings dn) in Hrun.
  unfold Py.bind at 1 in Hrun.
  rewrite call_connected in Hrun by reflexivity.
  cbn [sent record_request set_connection] in Hrun.
  destruct (server ((sent s1 ++ [user_search_ settings (name client)])) (group_search_ settings dn))
    as [results|e] eqn:Hgroup; [|discriminate].
  unfold Py.bind at 1 in Hrun. unfold modify at 1 in Hrun.
  unfold Py.bind at 1 in Hrun.
  match type of Hrun with
  | context [unbind_ settings ?s] => destruct (unbind_ settings s) as [o5 s5] eqn:Hunbind
  end.
  exists dn, attrs, results. rewrite Hsent1 in Huser, Hgroup. rewrite <- app_assoc in Hgroup.
  split; [exact Huser|]. split; [exact Hgroup|].
  apply unbind_cases in Hunbind
    as [(Hb & -> & ->)|(Hb & [(-> & Hconn & e & ->)|[(-> & e & ->)|[-> ->]]])];
    try discriminate; cbn in Hb; unfold ret in Hrun; injection Hrun as <- <-;
    (split; [reflexivity|]);
    unfold set_connection, set_bound, set_group_cache, record_request;
    cbn [_local_bound _local_connection sent _group_cache];
    unfold refresh_requests; rewrite <- Hbound1, Hb, Hsent1, Hcache1;
    rewrite <- ?app_assoc; cbn [app]; rewrite ?app_nil_r; reflexivity.
Qed.


Lemma bound_after_bind_bound (settings : Settings) (st : State_) :
  _local_bound st = true -> bound_after_bind settings st = true.
Proof. unfold bound_after_bind. by intros ->. Qed.

Lemma user_search_not_bind (settings : Settings) (user : option string) (st : State_) :
  user_search_ settings user ∉ bind_requests settings st.
Proof. intros (dn & password & Heq)%bind_requests_are_binds. discriminate. Qed.

Lemma Unbind_not_bind (settings : Settings) (st : State_) :
  Unbind ∉ bind_requests settings st.
Proof. intros (dn & password & Heq)%bind_requests_are_binds. discriminate. Qed.

(** A refresh that raises: before the final unbind nothing was stored and
    no unbind request went out; the worker keeps the bind it has. *)
Lemma refresh_raises (settings : Settings) (client : Client) (now : Time) (st st1 : State_)
  (e : exn) :
  refresh_ settings client now st = (Raised e, st1) ->
  (_local_bound st = true -> _local_bound st1 = true)
  /\ exists new,
       sent st1 = sent st ++ new
       /\ (user_search_ settings (name client) ∈ new ->
           _local_bound st1 = bound_after_bind settings st)
       /\ (((Unbind ∉ new) /\ _group_cache st1 = _group_cache st)
           \/ (last new = Some Unbind
               /\ exists memberships,
                    _group_cache st1
                    = <[name client := (memberships, time_add now CACHE_INVALIDATION_INTERVAL)]>
                        (_group_cache st))).
Proof.
  unfold refresh. intros Hrun.
  unfold Py.bind at 1 in Hrun.
  destruct (bind_ settings None None st) as [o1 s1] eqn:Hbind.
  apply bind_cases in Hbind
    as [(-> & Hsent1 & Hbound1 & Hcache1)|((e1 & ->) & Hb & Hb1 & Hcache1 & new & Hsent1 & Hnew)].
  2:{ injection Hrun as <- <-. split; [congruence|]. exists new. split; [exact Hsent1|].
      destruct Hnew as [->| ->].
      - split; [by intros ?%elem_of_nil|]. left. split; [apply not_elem_of_nil|exact Hcache1].
      - split; [by intros ?%user_search_not_bind|]. left.
        split; [apply Unbind_not_bind|exact Hcache1]. }
  assert (_local_bound st = true -> _local_bound s1 = true) as Hkeep.
  { intros Hb. rewrite Hbound1. by apply bound_after_bind_bound. }
  unfold Py.bind at 1 in Hrun.
  destruct (fetch_user_dn_ settings (name client) s1) as [o2 s2] eqn:Hfetch.
  apply fetch_user_dn_cases in Hfetch
    as [(-> & e2 & ->)|(-> & [(e2 & ->)|(dn & attrs & -> & Huser)])].
  - injection Hrun as <- <-. split; [exact Hkeep|]. exists (bind_requests settings st).
    split; [exact Hsent1|]. split; [by intros ?%user_search_not_bind|]. left.
    split; [apply Unbind_not_bind|exact Hcache1].
  - injection Hrun as <- <-. split; [exact Hkeep|].
    exists (bind_requests settings st ++ [user_search_ settings (name client)]).
    cbn [sent record_request set_connection _local_bound _group_cache].
    split; [by rewrite Hsent1, app_assoc|]. split; [by intros _|]. left. split; [|exact Hcache1].
    intros [?%Unbind_not_bind|Hin%list_elem_of_singleton]%elem_of_app; [done|discriminate].
  - unfold search in Hrun. fold (group_search_ settings dn) in Hrun.
    unfold Py.bind at 1 in Hrun.
    rewrite call_connected in Hrun by reflexivity.
    cbn [sent record_request set_connection] in Hrun.
    destruct (server ((sent s1 ++ [user_search_ settings (name client)]))
                (group_search_ settings dn)) as [results|e3] eqn:Hgroup.
    2:{ injection Hrun as <- <-. split; [exact Hkeep|].
        exists (bind_requests settings st
                ++ [user_search_ settings (name client); group_search_ settings dn]).
        cbn [sent record_request set_connection _local_bound _group_cache].
        split; [by rewrite Hsent1, <- !app_assoc|]. split; [by intros _|]. left.
        split; [|exact Hcache1].
        intros [?%Unbind_not_bind|Hin]%elem_of_app; [done|].
        apply elem_of_cons in Hin as [Hin|Hin%list_elem_of_singleton]; discriminate. }
    unfold Py.bind at 1 in Hrun. unfold modify at 1 in Hrun.
    unfold Py.bind at 1 in Hrun.
    match type of Hrun with
    | context [unbind_ settings ?s] => destruct (unbind_ settings s) as [o5 s5] eqn:Hunbind
    end.
    apply unbind_cases in Hunbind
      as [(Hb & -> & ->)|(Hb & [(-> & Hconn & e5 & ->)|[(-> & e5 & ->)|[-> ->]]])];
      try discriminate.
    cbn in Hb. injection Hrun as <- <-.
    unfold set_connection, set_bound, set_group_cache, record_request.
    cbn [_local_bound _local_connection sent _group_cache].
    split; [by intros _|].
    exists (bind_requests settings st
            ++ [user_search_ settings (name client); group_search_ settings dn; Unbind]).
    split; [by rewrite Hsent1, <- !app_assoc|].
    split; [intros _; congruence|]. right. split.
    + rewrite last_app. reflexivity.
    + eexists. rewrite Hcache1. reflexivity.
Qed.


(** X13.  A lookup that returns leaves an entry for the client under which
    every later lookup before the time of expiry returns the same
    memberships and changes nothing: no request goes out.  The lookup was
    either such a hit itself, or a complete refresh: the directory gave
    exactly one entry for the user, the memberships are the values of the
    group name attribute in the answer to the group search, they expire
    [CACHE_INVALIDATION_INTERVAL] after [now], and the worker is left
    unbound and without connection. *)
Theorem lookup_is_served_from_cache (settings : Settings) (client : Client) (now : Time)
  (st st1 : State_) (memberships : list string) :
  get_group_memberships_ settings client now st = (Returned memberships, st1) ->
  exists expires,
    _group_cache st1 !! name client = Some (memberships, expires)
    /\ (forall now', time_gt expires now' = true ->
          get_group_memberships_ settings client now' st1 = (Returned memberships, st1))
    /\ ((st1 = st /\ time_gt expires now = true)
        \/ (expires = time_add now CACHE_INVALIDATION_INTERVAL
            /\ exists dn attrs results,
                 server (sent st ++ bind_requests settings st)
                   (user_search_ settings (name client))
                 = Returned [(dn, attrs)]
                 /\ server (sent st ++ bind_requests settings st
                            ++ [user_search_ settings (name client)])
                      (group_search_ settings dn)
                    = Returned results
                 /\ memberships = collect_memberships (ldap_group_name_attribute settings) results
                 /\ st1 = {| _local_bound := false; _local_connection := false;
                             sent := sent st ++ refresh_requests_ settings client dn st;
                             _group_cache := <[name client := (memberships, expires)]>
                                               (_group_cache st) |})).
Proof.
  intros Hrun.
  assert (forall expires,
            _group_cache st1 !! name client = Some (memberships, expires) ->
            forall now', time_gt expires now' = true ->
              get_group_memberships_ settings client now' st1 = (Returned memberships, st1))
    as Hhit.
  { intros expires Hentry now' Hfresh. unfold get_group_memberships, Py.bind, get.
    rewrite Hentry, Hfresh. reflexivity. }
  assert (refresh_ settings client now st = (Returned memberships, st1) ->
          exists expires,
            _group_cache st1 !! name client = Some (memberships, expires)
            /\ expires = time_add now CACHE_INVALIDATION_INTERVAL
            /\ exists dn attrs results,
                 server (sent st ++ bind_requests settings st)
                   (user_search_ settings (name client))
                 = Returned [(dn, attrs)]
                 /\ server (sent st ++ bind_requests settings st
                            ++ [user_search_ settings (name client)])
                      (group_search_ settings dn)
                    = Returned results
                 /\ memberships = collect_memberships (ldap_group_name_attribute settings) results
                 /\ st1 = {| _local_bound := false; _local_connection := false;
                             sent := sent st ++ refresh_requests_ settings client dn st;
                             _group_cache := <[name client := (memberships, expires)]>
                                               (_group_cache st) |}) as Hrefresh.
  { intros (dn & attrs & results & Huser & Hgroup & Hm & Hst1)%refresh_returns.
    exists (time_add now CACHE_INVALIDATION_INTERVAL). split.
    - rewrite Hst1. cbn [_group_cache]. apply lookup_insert_eq.
    - split; [reflexivity|]. exists dn, attrs, results. done. }
  unfold get_group_memberships in Hrun. unfold Py.bind at 1 in Hrun. unfold get at 1 in Hrun.
  destruct (_group_cache st !! name client) as [[cached expires]|] eqn:Hentry.
  - destruct (time_gt expires now) eqn:Hfresh.
    + injection Hrun as <- <-. exists expires. split; [exact Hentry|].
      split; [by apply Hhit|]. left. done.
    + destruct (Hrefresh Hrun) as (expires' & Hentry' & Hexp & Hrest).
      exists expires'. split; [exact Hentry'|]. split; [by apply Hhit|]. right. done.
  - destruct (Hrefresh Hrun) as (expires' & Hentry' & Hexp & Hrest).
    exists expires'. split; [exact Hentry'|]. split; [by apply Hhit|]. right. done.
Qed.

(** X14.  A lookup that raises found no valid entry and went to the
    directory.  It never releases a bind: a worker that was bound stays
    bound, and once the user search is out the worker has the bind that
    [bind()] gave it.  Unless the failure is that of the final unbind
    request, no unbind request was sent and the cache is as before; when the
    final unbind fails, the new entry is already stored. *)
Theorem failed_lookup_keeps_cache (settings : Settings) (client : Client) (now : Time)
  (st st1 : State_) (e : exn) :
  get_group_memberships_ settings client now st = (Raised e, st1) ->
  (forall cached expires,
     _group_cache st !! name client = Some (cached, expires) -> time_gt expires now = false)
  /\ (_local_bound st = true -> _local_bound st1 = true)
  /\ exists new,
       sent st1 = sent st ++ new
       /\ (user_search_ settings (name client) ∈ new ->
           _local_bound st1 = bound_after_bind settings st)
       /\ (((Unbind ∉ new) /\ _group_cache st1 = _group_cache st)
           \/ (last new = Some Unbind
               /\ exists memberships,
                    _group_cache st1
                    = <[name client := (memberships, time_add now CACHE_INVALIDATION_INTERVAL)]>
                        (_group_cache st))).
Proof.
  unfold get_group_memberships. unfold Py.bind at 1. unfold get at 1.
  destruct (_group_cache st !! name client) as [[cached expires]|] eqn:Hentry.
  - destruct (time_gt expires now) eqn:Hfresh; [discriminate|].
    intros Hrun%refresh_raises. split; [|exact Hrun].
    intros cached' expires' [= <- <-]. exact Hfresh.
  - intros Hrun%refresh_raises. split; [|exact Hrun]. discriminate.
Qed.

(** X15.  After [clear_cache] no lookup is served from the cache: one that
    returns has made the complete refresh, and the cache then holds the
    entry of this client and nothing else. *)
Theorem clear_cache_forces_refresh (settings : Settings) (client : Client) (now : Time)
  (st st1 : State_) (memberships : list string) :
  (clear_cache ;; get_group_memberships_ settings client now) st = (Returned memberships, st1) ->
  exists dn,
    st1 = {| _local_bound := false; _local_connection := false;
             sent := sent st ++ refresh_requests_ settings client dn st;
             _group_cache := {[ name client :=
                                  (memberships, time_add now CACHE_INVALIDATION_INTERVAL) ]} |}.
Proof.
  unfold clear_cache. unfold Py.bind at 1. unfold modify at 1.
  unfold get_group_memberships. unfold Py.bind at 1. unfold get at 1.
  cbn [_group_cache set_group_cache]. rewrite lookup_empty.
  intros (dn & attrs & results & _ & _ & _ & ->)%refresh_returns.
  exists dn. cbn [sent set_group_cache _group_cache]. rewrite insert_empty. reflexivity.
Qed.

(** X16.  [bind] followed by [unbind]: when both return, the worker is
    unbound and without connection whatever it was before, the cache is
    untouched, and what went out is the unbind request alone for a worker
    that was bound (the credentials are then ignored), a bind and an unbind
    for one that was not and has a DN and a password (the configured ones
    only when neither is given), and nothing otherwise. *)
Theorem bind_unbind_round_trip (settings : Settings) (dn password : option string)
  (st st1 : State_) :
  (bind_ settings dn password ;; unbind_ settings) st = (Returned tt, st1) ->
  st1 = {| _local_bound := false; _local_connection := false;
           sent := sent st
                   ++ (if _local_bound st then [Unbind]
                       else
                         match
                           match dn, password with
                           | None, None => (ldap_bind_dn settings, ldap_bind_pw settings)
                           | _, _ => (dn, password)
                           end
                         with
                         | (Some dn, Some password) => [SimpleBind dn password; Unbind]
                         | _ => []
                         end);
           _group_cache := _group_cache st |}.
Proof.
  assert (forall s : State_, _local_bound s = false ->
            unbind_ settings s = (Returned tt, set_connection false s)) as Hunbound.
  { intros s Hb. unfold unbind, Py.bind, get, modify, ret. rewrite Hb. reflexivity. }
  assert (forall s s' : State_, _local_bound s = true ->
            unbind_ settings s = (Returned tt, s') ->
            s' = {| _local_bound := false; _local_connection := false;
                    sent := sent s ++ [Unbind]; _group_cache := _group_cache s |}) as Hbound.
  { intros s s' Hb [(Hb' & _)|(_ & [(_ & _ & e & ?)|[(_ & e & ?)|[-> _]]])]%unbind_cases;
      try congruence. reflexivity. }
  unfold Py.bind at 1. unfold Ldap.bind. unfold Py.bind at 1. unfold get at 1.
  destruct (_local_bound st) eqn:Hb.
  { unfold ret at 1. intros Hrun. by apply Hbound. }
  assert (unbind_ settings st = (Returned tt, st1) ->
          st1 = {| _local_bound := false; _local_connection := false;
                   sent := sent st ++ []; _group_cache := _group_cache st |}) as Hnothing.
  { rewrite Hunbound by done. intros [= <-]. rewrite app_nil_r.
    unfold set_connection. by rewrite Hb. }
  assert (forall d p,
            match (call_ settings (SimpleBind d p) ;; modify (set_bound true)) st with
            | (Returned _, s) => unbind_ settings s
            | (Raised e, s) => (Raised e, s)
            end = (Returned tt, st1) ->
            st1 = {| _local_bound := false; _local_connection := false;
                     sent := sent st ++ [SimpleBind d p; Unbind];
                     _group_cache := _group_cache st |}) as Hboth.
  { intros d p. unfold Py.bind.
    destruct (call_ settings (SimpleBind d p) st) as [o s] eqn:Hcall.
    apply call_cases in Hcall as [(-> & _ & e & _ & ->)|[-> ->]]; [discriminate|].
    destruct (server (sent st) (SimpleBind d p)) as [result|e]; [|discriminate].
    unfold modify. intros ->%Hbound; [|reflexivity].
    cbn [sent _group_cache set_bound record_request set_connection].
    by rewrite <- app_assoc. }
  destruct dn as [d|], password as [p|]; cbn beta iota;
    [by apply Hboth|exact Hnothing|exact Hnothing|].
  destruct (ldap_bind_dn settings) as [d|], (ldap_bind_pw settings) as [p|];
    [by apply Hboth|exact Hnothing..].
Qed.


(** X17.  The filter string of the two searches, for every iteration order
    of the dictionary: the test of the object class and the test of the
    attribute, with the value as it was given, joined into an AND filter in
    one of the two orders.  When the attribute is [objectClass] itself the
    dictionary has one key, and the filter is the single test of the value:
    the configured class is not tested. *)
Theorem class_filter_search_string (object_class attribute value : string) :
  (forall l, dict_order l ≡ₚ l) ->
  (attribute = "objectClass" ->
   search_string_ (class_filter object_class attribute value)
   = "(" +:+ "objectClass" +:+ "=" +:+ value +:+ ")")
  /\ (attribute <> "objectClass" ->
      search_string_ (class_filter object_class attribute value)
      = "(&(" +:+ join ")(" ["objectClass" +:+ "=" +:+ object_class;
                             attribute +:+ "=" +:+ value] +:+ "))"
      \/ search_string_ (class_filter object_class attribute value)
         = "(&(" +:+ join ")(" [attribute +:+ "=" +:+ value;
                                "objectClass" +:+ "=" +:+ object_class] +:+ "))").
Proof.
  intros Hperm. unfold search_string, class_filter. split.
  - intros ->. rewrite insert_singleton_eq, map_size_singleton, map_to_list_singleton.
    rewrite bool_decide_eq_false_2 by lia.
    pose proof (Hperm [("objectClass", value)]) as Hitems.
    apply Permutation_sym, Permutation_singleton_l in Hitems. rewrite <- Hitems. reflexivity.
  - intros Hne.
    assert (({[ "objectClass" := object_class ]} : gmap string string) !! attribute = None)
      as Hfresh by by rewrite lookup_singleton_ne.
    rewrite map_size_insert_None, map_size_singleton by exact Hfresh.
    rewrite bool_decide_eq_true_2 by lia.
    pose proof (map_to_list_insert _ attribute value Hfresh) as Hitems.
    rewrite map_to_list_singleton in Hitems.
    rewrite <- (Hperm (map_to_list _)) in Hitems.
    apply Permutation_sym, Permutation_length_2_inv in Hitems as [-> | ->].
    + right. reflexivity.
    + left. reflexivity.
Qed.

End BackendFacts.


(** Two lookups for the sample client, 899 seconds apart: the second one
    is answered from the entry that the first one stored. *)
Lemma lookup_is_served_from_cache_witness :
  sample_lookup sample_server 1899%Z (sample_lookup sample_server 1000%Z new_State).2
  = (Returned ["ops"; "operators"; "dev"], (sample_lookup sample_server 1000%Z new_State).2).
Proof.
  destruct (lookup_is_served_from_cache Z.add Z.gtb (fun _ => Returned tt) sample_server
              (fun items => items) sample_settings kibana_client 1000%Z new_State
              (sample_lookup sample_server 1000%Z new_State).2 ["ops"; "operators"; "dev"])
    as (expires & Hentry & Hagain & _).
  - assert ((sample_lookup sample_server 1000%Z new_State).1 = Returned ["ops"; "operators"; "dev"])
      as Hfst by (vm_compute; reflexivity).
    unfold sample_lookup in *.
    destruct (get_group_memberships _ _ _ _ _ _ _ _ _) as [o s]. cbn [fst snd] in *.
    rewrite Hfst. reflexivity.
  - vm_compute in Hentry. injection Hentry as <-. apply Hagain. reflexivity.
Defined.

(** The directory that knows no user: the lookup raises, and the cache
    stays empty. *)
Lemma failed_lookup_keeps_cache_witness :
  _group_cache (sample_lookup empty_server 1000%Z new_State).2 = ∅
  \/ last (sent (sample_lookup empty_server 1000%Z new_State).2) = Some Unbind.
Proof.
  destruct (failed_lookup_keeps_cache Z.add Z.gtb (fun _ => Returned tt) empty_server
              (fun items => items) sample_settings kibana_client 1000%Z new_State
              (sample_lookup empty_server 1000%Z new_State).2 LDAPError)
    as (_ & _ & new & Hsent & _ & [[_ Hcache]|[Hlast _]]).
  - assert ((sample_lookup empty_server 1000%Z new_State).1 = Raised LDAPError)
      as Hfst by (vm_compute; reflexivity).
    unfold sample_lookup in *.
    destruct (get_group_memberships _ _ _ _ _ _ _ _ _) as [o s]. cbn [fst snd] in *.
    rewrite Hfst. reflexivity.
  - left. exact Hcache.
  - right. rewrite Hsent. exact Hlast.
Defined.

(** The cache is cleared after a first lookup; the next lookup stores the
    entry again, with the new time of expiry. *)
Lemma clear_cache_forces_refresh_witness :
  _group_cache
    ((clear_cache ;; sample_lookup sample_server 1500%Z)
       (sample_lookup sample_server 1000%Z new_State).2).2
  = {[ Some "kibana" := (["ops"; "operators"; "dev"], 2400%Z) ]}.
Proof.
  destruct (clear_cache_forces_refresh Z.add Z.gtb (fun _ => Returned tt) sample_server
              (fun items => items) sample_settings kibana_client 1500%Z
              (sample_lookup sample_server 1000%Z new_State).2
              ((clear_cache ;; sample_lookup sample_server 1500%Z)
                 (sample_lookup sample_server 1000%Z new_State).2).2
              ["ops"; "operators"; "dev"]) as [dn Hstate].
  - assert (((clear_cache ;; sample_lookup sample_server 1500%Z)
               (sample_lookup sample_server 1000%Z new_State).2).1
            = Returned ["ops"; "operators"; "dev"]) as Hfst by (vm_compute; reflexivity).
    unfold sample_lookup in *.
    destruct ((clear_cache ;; get_group_memberships _ _ _ _ _ _ _ _) _) as [o s].
    cbn [fst snd] in *. rewrite Hfst. reflexivity.
  - rewrite Hstate. reflexivity.
Defined.

(** A fresh worker binds with the configured credentials and unbinds. *)
Lemma bind_unbind_round_trip_witness :
  ((Ldap.bind (fun _ => Returned tt) sample_server sample_settings None None ;;
    unbind (fun _ => Returned tt) sample_server sample_settings) (@new_State Z)).2
  = {| _local_bound := false; _local_connection := false;
       sent := [SimpleBind "cn=armor" "secret"; Unbind]; _group_cache := ∅ |}.
Proof.
  apply (bind_unbind_round_trip (fun _ => Returned tt) sample_server sample_settings None None
           (@new_State Z)).
  reflexivity.
Defined.

(** The user search of the sample settings, with the dictionary in the
    order of its list of items. *)
Lemma class_filter_search_string_witness :
  search_string (fun items => items) (class_filter "person" "uid" "kibana")
  = "(&(" +:+ join ")(" ["objectClass" +:+ "=" +:+ "person"; "uid" +:+ "=" +:+ "kibana"] +:+ "))"
  \/ search_string (fun items => items) (class_filter "person" "uid" "kibana")
     = "(&(" +:+ join ")(" ["uid" +:+ "=" +:+ "kibana"; "objectClass" +:+ "=" +:+ "person"] +:+ "))".
Proof.
  apply (class_filter_search_string (fun items => items) "person" "uid" "kibana").
  - intros l. reflexivity.
  - discriminate.
Defined.

End LdapFacts.

(** ** The role backend *)
Module RoleBackendFacts.

Import PyFacts Auth AuthFacts RoleBackend.
Local Open Scope py_scope.

(** Restrictions that have not been parsed decide every check by raising:
    the first one is asked and fails in its parse step. *)
Lemma first_decisive_unparsed (permits : M Restriction bool) (flat : list Restriction) :
  (forall r, _parsed r = false -> (permits r).1 = Raised (invalid_restriction (raw_restriction r))) ->
  Forall (fun r => _parsed r = false) flat ->
  first_decisive permits flat
  = match flat with
    | [] => Returned false
    | r :: _ => Raised (invalid_restriction (raw_restriction r))
    end.
Proof.
  intros Hpermits Hflat. destruct Hflat as [|r flat Hr _]; [reflexivity|].
  cbn [first_decisive]. rewrite (Hpermits r Hr). reflexivity.
Qed.

Section BackendFacts.

Context {Hit : Type}.
Variable process : Request -> outcome (option (@Response Hit)).
Variable from_search_result : Hit -> search_result.

Local Abbreviation add_role_ := (add_role from_search_result).
Local Abbreviation role_of_hit_ := (role_of_hit from_search_result).
Local Abbreviation get_role_memberships_ := (get_role_memberships process from_search_result).

(** The loop over the hits appends the roles it can make, in order, until
    a hit raises something that is not caught. *)
Lemma for_each_add_role (hits : list Hit) (roles : list Role) :
  (Forall (fun hit => forall e, from_search_result hit <> OtherError e) hits ->
   for_each hits add_role_ roles = (Returned tt, roles ++ omap role_of_hit_ hits))
  /\ forall o roles',
       for_each hits add_role_ roles = (o, roles') ->
       exists n, roles' = roles ++ omap role_of_hit_ (take n hits).
Proof.
  revert roles. induction hits as [|hit hits IH]; intros roles.
  { split.
    - intros _. cbn. by rewrite app_nil_r.
    - intros o roles' [= <- <-]. exists 0%nat. cbn. by rewrite app_nil_r. }
  cbn [for_each]. unfold Py.bind, add_role.
  split.
  - intros Hall. inversion Hall as [|? ? Hhit Hhits]; subst.
    destruct (from_search_result hit) as [role_name raw| |e] eqn:Hresult.
    + unfold modify. rewrite (proj1 (IH _) Hhits). cbn [omap list_omap].
      unfold role_of_hit at 2. rewrite Hresult. by rewrite <- app_assoc.
    + unfold ret at 1. rewrite (proj1 (IH _) Hhits). cbn [omap list_omap].
      unfold role_of_hit at 2. by rewrite Hresult.
    + by destruct (Hhit e).
  - intros o roles'.
    destruct (from_search_result hit) as [role_name raw| |e] eqn:Hresult.
    + unfold modify at 1. intros [n ->]%(proj2 (IH _)). exists (S n).
      cbn [take omap list_omap]. unfold role_of_hit at 2. rewrite Hresult.
      by rewrite <- app_assoc.
    + unfold ret at 1. intros [n ->]%(proj2 (IH _)). exists (S n).
      cbn [take omap list_omap]. unfold role_of_hit at 2. by rewrite Hresult.
    + unfold raise. intros [= <- <-]. exists 0%nat. cbn. by rewrite app_nil_r.
Qed.

Lemma role_of_hit_unparsed (hit : Hit) (role : Role) :
  role_of_hit_ hit = Some role -> Forall (fun r => _parsed r = false) (restrictions role).
Proof.
  unfold role_of_hit. destruct (from_search_result hit) as [role_name raw| |e]; try discriminate.
  intros [= <-]. cbn [restrictions]. apply Forall_fmap, Forall_forall. done.
Qed.

Lemma get_role_memberships_unparsed (client : Client) (roles : list Role) :
  get_role_memberships_ client = Returned (Some roles) ->
  Forall (fun r => _parsed r = false) (concat (restrictions <$> roles)).
Proof.
  unfold get_role_memberships.
  destruct (process _) as [[response|]|e]; try discriminate.
  destruct (raise_for_status response) as [[]|e]; [|discriminate].
  destruct (json response) as [result|e]; [|discriminate].
  destruct (for_each _ _ _) as [[[]|e] roles'] eqn:Hloop; [|discriminate].
  intros [= <-]. apply for_each_add_role in Hloop as [n ->]. cbn [app].
  apply Forall_concat, Forall_fmap, Forall_forall.
  intros role (hit & _ & Hhit)%list_elem_of_omap. by eapply role_of_hit_unparsed.
Qed.


(** The first hit with an error that the loop does not catch ends it. *)
Lemma for_each_add_role_raises (before after : list Hit) (hit : Hit) (e : exn)
  (roles : list Role) :
  Forall (fun hit => forall e, from_search_result hit <> OtherError e) before ->
  from_search_result hit = OtherError e ->
  (for_each (before ++ hit :: after) add_role_ roles).1 = Raised e.
Proof.
  intros Hbefore Hhit. revert roles. induction Hbefore as [|first before Hfirst _ IH]; intros roles.
  - cbn [app for_each]. unfold Py.bind, add_role. rewrite Hhit. reflexivity.
  - cbn [app for_each]. unfold Py.bind, add_role.
    destruct (from_search_result first) as [role_name raw| |e'] eqn:Hresult.
    + unfold modify at 1. apply IH.
    + unfold ret at 1. apply IH.
    + by destruct (Hfirst e').
Qed.

(** What [populate] leaves in [roles]: what was there, or what the role
    backend returned. *)
Lemma populate_roles (self : Auth) (client : Client) :
  roles (populate self client).2 = roles client
  \/ exists c, role_backend self c = Returned (roles (populate self client).2).
Proof.
  unfold populate, Py.bind, get, modify, ret, raise.
  destruct (group_backend self) as [backend|], (username client) as [u|]; cbn;
    try destruct (backend _) as [memberships|[]]; cbn;
    try match goal with |- context [groups client] => destruct (groups client) end; cbn;
    try (by left);
    match goal with
    | |- context [role_backend self ?c] =>
        destruct (role_backend self c) as [[roles|]|[]] eqn:Hroles; cbn;
        try (by left); right; by exists c
    end.
Qed.

Lemma can_outcome (permits : M Restriction bool) (c : Client) (rl : list Role) :
  roles c = Some rl ->
  (can permits c).1 = first_decisive permits (concat (restrictions <$> rl)).
Proof.
  intros Hroles. unfold can. rewrite Hroles. rewrite <- any_role_outcome.
  destruct (any_role permits rl) as [o rl']. reflexivity.
Qed.

(** X18.  What a returning search yields: the request asks for 1000 hits
    for the client's name and groups; when no hit raises an error other than
    [ElasticSearchError], the roles are those of the hits that give one, in
    the order of the hits, and the others are left out; otherwise the first
    such error ends the call.  [None] is not returned when there is a
    response. *)
Theorem get_role_memberships_roles (client : Client) (response : Response)
  (result : gmap string (gmap string (list Hit))) :
  process (set_param "size" 1000 (ElasticRole_search (name client) (groups client)))
  = Returned (Some response) ->
  raise_for_status response = Returned tt ->
  json response = Returned result ->
  let hits := default [] (default ∅ (result !! "hits") !! "hits") in
  (Forall (fun hit => forall e, from_search_result hit <> OtherError e) hits ->
   get_role_memberships_ client = Returned (Some (omap role_of_hit_ hits)))
  /\ (forall before hit after e,
        hits = before ++ hit :: after ->
        Forall (fun hit => forall e, from_search_result hit <> OtherError e) before ->
        from_search_result hit = OtherError e ->
        get_role_memberships_ client = Raised e)
  /\ get_role_memberships_ client <> Returned None.
Proof.
  intros Hprocess Hstatus Hjson hits. unfold get_role_memberships.
  rewrite Hprocess, Hstatus, Hjson. fold hits. split; [|split].
  - intros Hall. rewrite (proj1 (for_each_add_role hits []) Hall). reflexivity.
  - intros before hit after e Hhits Hbefore Hhit.
    pose proof (for_each_add_role_raises before after hit e [] Hbefore Hhit) as Hloop.
    rewrite <- Hhits in Hloop.
    destruct (for_each hits add_role_ []) as [o roles]. cbn [fst] in Hloop. by rewrite Hloop.
  - by destruct (for_each hits add_role_ []) as [[[]|e] roles].
Qed.

(** X19.  With this role backend no client is ever granted anything: after
    [populate] on a client that had no roles, [can_read] and [can_write]
    never return [True].  When roles were assigned, the answer is [False] if
    they have no restriction at all, and otherwise the [RestrictionError] of
    the first restriction, which the backend wrapped unparsed and which
    fails in its parse step. *)
Theorem backend_roles_never_permit (self : Auth) (client : Client) (index : string)
  (document field : option string) :
  role_backend self = get_role_memberships_ ->
  roles client = None ->
  let client' := (populate self client).2 in
  (can_read index document field client').1 <> Returned true
  /\ (can_write index document field client').1 <> Returned true
  /\ forall rl,
       roles client' = Some rl ->
       let answer :=
         match concat (restrictions <$> rl) with
         | [] => Returned false
         | r :: _ => Raised (invalid_restriction (raw_restriction r))
         end in
       (can_read index document field client').1 = answer
       /\ (can_write index document field client').1 = answer.
Proof.
  intros Hbackend Hnone client'.
  assert (forall rl,
            roles client' = Some rl ->
            (can_read index document field client').1
            = match concat (restrictions <$> rl) with
              | [] => Returned false
              | r :: _ => Raised (invalid_restriction (raw_restriction r))
              end
            /\ (can_write index document field client').1
               = match concat (restrictions <$> rl) with
                 | [] => Returned false
                 | r :: _ => Raised (invalid_restriction (raw_restriction r))
                 end) as Hanswer.
  { intros rl Hrl.
    assert (Forall (fun r => _parsed r = false) (concat (restrictions <$> rl))) as Hunparsed.
    { destruct (populate_roles self client) as [Hsame|[c Hc]].
      - fold client' in Hsame. congruence.
      - fold client' in Hc. rewrite Hbackend, Hrl in Hc.
        by apply get_role_memberships_unparsed in Hc. }
    unfold can_read, can_write. rewrite !(can_outcome _ _ rl Hrl). split.
    - apply first_decisive_unparsed; [|exact Hunparsed].
      intros r Hr. by rewrite permits_read_unparsed.
    - apply first_decisive_unparsed; [|exact Hunparsed].
      intros r Hr. by rewrite permits_write_unparsed. }
  split; [|split; [|exact Hanswer]].
  - destruct (roles client') as [rl|] eqn:Hrl.
    + rewrite (proj1 (Hanswer rl eq_refl)). by destruct (concat _).
    + unfold can_read, can. by rewrite Hrl.
  - destruct (roles client') as [rl|] eqn:Hrl.
    + rewrite (proj2 (Hanswer rl eq_refl)). by destruct (concat _).
    + unfold can_write, can. by rewrite Hrl.
Qed.

End BackendFacts.


(** The sample search: the second hit is no role and is left out. *)
Lemma get_role_memberships_roles_witness :
  get_role_memberships sample_process (fun hit => hit) (new_Client "10.0.0.1" 9200)
  = Returned (Some [ {| role_name := "kibana-user";
                        restrictions := [new_Restriction "read/logs-*";
                                         new_Restriction "write/.kibana"] |};
                     {| role_name := "guest"; restrictions := [] |} ]).
Proof.
  destruct (get_role_memberships_roles sample_process (fun hit => hit)
              (new_Client "10.0.0.1" 9200) sample_response
              {[ "hits" := {[ "hits" := [RoleOf "kibana-user" ["read/logs-*"; "write/.kibana"];
                                         ElasticSearchError;
                                         RoleOf "guest" []] ]} ]}
              eq_refl eq_refl eq_refl) as [Hroles _].
  rewrite Hroles; [vm_compute; reflexivity|].
  vm_compute.
  repeat (apply List.Forall_cons; [intros e; discriminate|]). apply List.Forall_nil.
Defined.

(** The client that the sample backend populates is refused the index that
    its first restriction names. *)
Lemma backend_roles_never_permit_witness :
  (can_read "logs-2020" None None (populate backend_auth (new_Client "10.0.0.1" 9200)).2).1
  <> Returned true.
Proof.
  destruct (backend_roles_never_permit sample_process (fun hit => hit) backend_auth
              (new_Client "10.0.0.1" 9200) "logs-2020" None None eq_refl eq_refl)
    as [Hread _].
  exact Hread.
Defined.

Example backend_roles_raise :
  (can_read "logs-2020" None None (populate backend_auth (new_Client "10.0.0.1" 9200)).2).1
  = Raised (invalid_restriction "read/logs-*").
Proof. vm_compute. reflexivity. Qed.

End RoleBackendFacts.
